(** * memegen: caption fitting and rendering (memegen/domain/image.py)

    A shallow embedding of the functions of [memegen/domain/image.py] and the
    properties of its text splitter, font sizer, caption layout, outline
    drawing, path derivation and persistence.

    Python integers are [Z]; a Python [str] is the list of its Unicode code
    points; tuples of strings are lists; calls into Pillow, hashlib and the
    operating system are either modelled (MD5, UTF-8, posixpath) or taken as
    an interface the development is parametric in. *)

From Stdlib Require Import ZArith NArith List Bool Lia String Ascii.
From Stdlib Require Import DecimalString DecimalZ.
From Equations Require Import Equations.
From Stdlib Require Floats Uint63.
Import ListNotations.
Open Scope Z_scope.

(** ** Python values *)

Module Py.

(** A character is a Unicode code point, a string a sequence of them. *)
Definition char := N.
Definition str := list char.

(** String literals of the model, written as Rocq strings. *)
Definition lit (s : string) : str :=
  map N_of_ascii (list_ascii_of_string s).

Definition len {A : Type} (s : list A) : Z := Z.of_nat (List.length s).

(** [range(lo, hi)] *)
Definition range (lo hi : Z) : list Z :=
  map (fun k => lo + Z.of_nat k) (seq 0 (Z.to_nat (hi - lo))).

(** [s[i]] for an index the caller keeps inside [range(len(s))]. *)
Definition item {A : Type} (s : list A) (i : Z) : option A :=
  nth_error s (Z.to_nat i).

(** A slice bound, as Python normalises it: a negative bound counts from
    the end, and the result is clamped to [0, len]. *)
Definition bound (n : Z) (i : Z) : Z :=
  if i <? 0 then Z.max 0 (i + n) else Z.min i n.

(** [s[start:stop]]; [None] is an omitted bound. *)
Definition slice {A : Type} (s : list A) (start stop : option Z) : list A :=
  let n := len s in
  let lo := match start with None => 0 | Some i => bound n i end in
  let hi := match stop with None => n | Some i => bound n i end in
  firstn (Z.to_nat (hi - lo)) (skipn (Z.to_nat lo) s).

(** [min(l)]; Python raises ValueError on an empty sequence. *)
Definition min (l : list Z) : option Z :=
  match l with
  | [] => None
  | x :: xs => Some (fold_left Z.min xs x)
  end.

(** [a == b] on strings *)
Definition eqb (a b : str) : bool :=
  if list_eq_dec N.eq_dec a b then true else false.

(** [sep.join(parts)] *)
Fixpoint join {A : Type} (sep : list A) (parts : list (list A)) : list A :=
  match parts with
  | [] => []
  | [p] => p
  | p :: rest => p ++ sep ++ join sep rest
  end.

End Py.

Abbreviation str := Py.str.
Abbreviation len := Py.len.

Definition space : Py.char := 32%N.
Definition newline : Py.char := 10%N.

(** ** TextSplitter: [_split] *)

Module TextSplitter.

Definition is_space_at (text : str) (i : Z) : bool :=
  match Py.item text i with
  | Some c => N.eqb c space
  | None => false
  end.

(** The [for i, j in zip(space_proximities, space_indices)] loop: the first
    pair whose proximity is the minimum decides the result and breaks. *)
Fixpoint scan (text : str) (space_proximities : list Z)
         (pairs : list (Z * Z)) (result : list str) : list str :=
  match pairs with
  | [] => result
  | (i, j) :: rest =>
      (* the minimum exists: the list holds the proximity in hand *)
      match Py.min space_proximities with
      | Some m =>
          if i =? m
          then [Py.slice text None (Some j); Py.slice text (Some (j + 1)) None]
          else scan text space_proximities rest result
      | None => result
      end
  end.

Definition _split (text : str) : list str :=
  let result := [text] in
  if (3 <=? len text)
     && existsb (N.eqb space) (Py.slice text (Some 1) (Some (-1)))
  then
    let space_indices := filter (is_space_at text) (Py.range 0 (len text)) in
    let space_proximities :=
      map (fun i => Z.abs (i - len text / 2)) space_indices in
    scan text space_proximities
         (combine space_proximities space_indices) result
  else result.

(** A space strictly between the first and the last character. *)
Definition interior_space (text : str) : Prop :=
  exists i, 0 < i < len text - 1 /\ Py.item text i = Some space.

(** [j] is the index of a space of [text] closest to the midpoint, the
    leftmost one among equally close spaces. *)
Definition closest_space (text : str) (j : Z) : Prop :=
  0 <= j < len text /\ Py.item text j = Some space /\
  forall k, 0 <= k < len text -> Py.item text k = Some space ->
    Z.abs (j - len text / 2) <= Z.abs (k - len text / 2) /\
    (Z.abs (k - len text / 2) = Z.abs (j - len text / 2) -> j <= k).

End TextSplitter.

(** ** Results of calls that may raise *)

Inductive exn : Type :=
| IOError | OSError | AttributeError | TypeError | ValueError
| UnicodeEncodeError | FileExistsError.

Inductive outcome (A : Type) : Type :=
| Return (a : A)
| Raise (e : exn).
Arguments Return {A} a.
Arguments Raise {A} e.

Definition bind {A B : Type} (m : outcome A) (k : A -> outcome B) : outcome B :=
  match m with
  | Return a => k a
  | Raise e => Raise e
  end.

Declare Scope outcome_scope.
Delimit Scope outcome_scope with outcome.
Notation "x <- m ;; k" := (bind m (fun x => k))
  (at level 61, m at next level, right associativity) : outcome_scope.

(** ** hashlib.md5 and [str.encode('utf-8')] *)

Module Hashlib.

Definition mask32 : Z := 0xffffffff.
Definition add32 (x y : Z) : Z := Z.land (x + y) mask32.
Definition not32 (x : Z) : Z := Z.lxor x mask32.
Definition rotl32 (x c : Z) : Z :=
  Z.land (Z.lor (Z.shiftl x c) (Z.shiftr x (32 - c))) mask32.

Definition shifts : list Z :=
  [7; 12; 17; 22; 7; 12; 17; 22; 7; 12; 17; 22; 7; 12; 17; 22;
   5; 9; 14; 20; 5; 9; 14; 20; 5; 9; 14; 20; 5; 9; 14; 20;
   4; 11; 16; 23; 4; 11; 16; 23; 4; 11; 16; 23; 4; 11; 16; 23;
   6; 10; 15; 21; 6; 10; 15; 21; 6; 10; 15; 21; 6; 10; 15; 21].

Definition sines : list Z :=
  [0xd76aa478; 0xe8c7b756; 0x242070db; 0xc1bdceee;
   0xf57c0faf; 0x4787c62a; 0xa8304613; 0xfd469501;
   0x698098d8; 0x8b44f7af; 0xffff5bb1; 0x895cd7be;
   0x6b901122; 0xfd987193; 0xa679438e; 0x49b40821;
   0xf61e2562; 0xc040b340; 0x265e5a51; 0xe9b6c7aa;
   0xd62f105d; 0x02441453; 0xd8a1e681; 0xe7d3fbc8;
   0x21e1cde6; 0xc33707d6; 0xf4d50d87; 0x455a14ed;
   0xa9e3e905; 0xfcefa3f8; 0x676f02d9; 0x8d2a4c8a;
   0xfffa3942; 0x8771f681; 0x6d9d6122; 0xfde5380c;
   0xa4beea44; 0x4bdecfa9; 0xf6bb4b60; 0xbebfbc70;
   0x289b7ec6; 0xeaa127fa; 0xd4ef3085; 0x04881d05;
   0xd9d4d039; 0xe6db99e5; 0x1fa27cf8; 0xc4ac5665;
   0xf4292244; 0x432aff97; 0xab9423a7; 0xfc93a039;
   0x655b59c3; 0x8f0ccc92; 0xffeff47d; 0x85845dd1;
   0x6fa87e4f; 0xfe2ce6e0; 0xa3014314; 0x4e0811a1;
   0xf7537e82; 0xbd3af235; 0x2ad7d2bb; 0xeb86d391].

(** Little-endian bytes of a word, and back. *)
Fixpoint le_bytes (n : nat) (x : Z) : list Z :=
  match n with
  | O => []
  | S n' => Z.land x 255 :: le_bytes n' (Z.shiftr x 8)
  end.

Fixpoint le_word (bs : list Z) : Z :=
  match bs with
  | [] => 0
  | b :: rest => b + 256 * le_word rest
  end.

(** The message followed by 0x80, zeros up to 56 modulo 64, and the bit
    length on 64 bits. *)
Definition pad (msg : list Z) : list Z :=
  let n := Py.len msg in
  let zeros := Z.to_nat ((55 - n) mod 64) in
  msg ++ [128] ++ repeat 0 zeros ++ le_bytes 8 (Z.land (8 * n) (2 ^ 64 - 1)).

Fixpoint words (n : nat) (bs : list Z) : list Z :=
  match n with
  | O => []
  | S n' => le_word (firstn 4 bs) :: words n' (skipn 4 bs)
  end.

Definition round (m : list Z) (st : Z * Z * Z * Z) (i : Z) : Z * Z * Z * Z :=
  let '(a, b, c, d) := st in
  let '(f, g) :=
    if i <? 16 then (Z.lor (Z.land b c) (Z.land (not32 b) d), i)
    else if i <? 32 then
      (Z.lor (Z.land d b) (Z.land (not32 d) c), (5 * i + 1) mod 16)
    else if i <? 48 then (Z.lxor b (Z.lxor c d), (3 * i + 5) mod 16)
    else (Z.lxor c (Z.lor b (not32 d)), (7 * i) mod 16) in
  let f := add32 (add32 (add32 f a) (nth (Z.to_nat i) sines 0))
                 (nth (Z.to_nat g) m 0) in
  (d, add32 b (rotl32 f (nth (Z.to_nat i) shifts 0)), b, c).

Definition compress (st : Z * Z * Z * Z) (block : list Z) : Z * Z * Z * Z :=
  let m := words 16 block in
  let '(a0, b0, c0, d0) := st in
  let '(a, b, c, d) := fold_left (round m) (Py.range 0 64) st in
  (add32 a0 a, add32 b0 b, add32 c0 c, add32 d0 d).

Fixpoint blocks (n : nat) (st : Z * Z * Z * Z) (bs : list Z) : Z * Z * Z * Z :=
  match n with
  | O => st
  | S n' => blocks n' (compress st (firstn 64 bs)) (skipn 64 bs)
  end.

(** The 16 bytes of the MD5 digest of a byte string. *)
Definition md5 (msg : list Z) : list Z :=
  let padded := pad msg in
  let '(a, b, c, d) :=
    blocks (List.length padded / 64)%nat
           (0x67452301, 0xefcdab89, 0x98badcfe, 0x10325476) padded in
  le_bytes 4 a ++ le_bytes 4 b ++ le_bytes 4 c ++ le_bytes 4 d.

Definition hexdigit (x : Z) : Py.char :=
  Z.to_N (if x <? 10 then 48 + x else 87 + x).

Definition hex (bs : list Z) : str :=
  flat_map (fun b => [hexdigit (b / 16); hexdigit (b mod 16)]) bs.

(** The hash object: [update] appends to the message, [hexdigest] prints
    the digest of what was fed so far. *)
Definition update (sha : list Z) (data : list Z) : list Z := sha ++ data.
Definition hexdigest (sha : list Z) : str := hex (md5 sha).

End Hashlib.

Module Codec.

(** UTF-8 bytes of one code point; surrogates and numbers that are not
    code points cannot be encoded. *)
Definition encode_char (c : Py.char) : outcome (list Z) :=
  let c := Z.of_N c in
  if c <? 0x80 then Return [c]
  else if c <? 0x800 then Return [0xc0 + c / 64; 0x80 + c mod 64]
  else if c <? 0x10000 then
    if (0xd800 <=? c) && (c <=? 0xdfff) then Raise UnicodeEncodeError
    else Return [0xe0 + c / 4096; 0x80 + (c / 64) mod 64; 0x80 + c mod 64]
  else if c <? 0x110000 then
    Return [0xf0 + c / 262144; 0x80 + (c / 4096) mod 64;
            0x80 + (c / 64) mod 64; 0x80 + c mod 64]
  else Raise ValueError.

(** [s.encode('utf-8')] *)
Fixpoint encode (s : str) : outcome (list Z) :=
  match s with
  | [] => Return []
  | c :: rest =>
      (bs <- encode_char c ;; more <- encode rest ;; Return (bs ++ more))%outcome
  end.

End Codec.

(** ** posixpath *)

Module Posixpath.

Definition sep : Py.char := 47%N.

Definition startswith_sep (s : str) : bool :=
  match s with
  | c :: _ => N.eqb c sep
  | [] => false
  end.

Definition endswith_sep (s : str) : bool := startswith_sep (rev s).

(** [os.path.join] of [a] and the components [p] *)
Definition join (a : str) (p : list str) : str :=
  fold_left
    (fun path b =>
       if startswith_sep b then b
       else if match path with [] => true | _ => endswith_sep path end
            then path ++ b
            else path ++ [sep] ++ b)
    p a.

Fixpoint lstrip_sep (s : str) : str :=
  match s with
  | c :: rest => if N.eqb c sep then lstrip_sep rest else s
  | [] => []
  end.

Definition rstrip_sep (s : str) : str := rev (lstrip_sep (rev s)).

(** [p.rfind('/') + 1] *)
Fixpoint after_last_sep (p : str) : nat :=
  match p with
  | [] => O
  | c :: rest =>
      match after_last_sep rest with
      | O => if N.eqb c sep then 1%nat else O
      | S k => S (S k)
      end
  end.

(** [os.path.dirname(p)] *)
Definition dirname (p : str) : str :=
  let head := firstn (after_last_sep p) p in
  if match head with [] => false | _ => true end
     && negb (forallb (N.eqb sep) head)
  then rstrip_sep head
  else head.

End Posixpath.

(** ** The libraries the renderer calls *)

(** Python floats: the operations the renderer applies to them. *)
Class Floats : Type := {
  float : Type;
  of_int : Z -> float;
  fadd : float -> float -> float;
  fsub : float -> float -> float;
  fmul : float -> float -> float;
  fdiv : float -> float -> float;
  trunc : float -> Z
}.

(** A Python number is an [int] or a [float]; mixed operands are converted
    to [float], and [/] always yields a [float]. *)
Inductive num `{Floats} : Type :=
| Int (z : Z)
| Float (x : float).

Section Numbers.
Context `{Floats}.

Definition to_float (a : num) : float :=
  match a with
  | Int z => of_int z
  | Float x => x
  end.

Definition add (a b : num) : num :=
  match a, b with
  | Int x, Int y => Int (x + y)
  | _, _ => Float (fadd (to_float a) (to_float b))
  end.

Definition sub (a b : num) : num :=
  match a, b with
  | Int x, Int y => Int (x - y)
  | _, _ => Float (fsub (to_float a) (to_float b))
  end.

Definition mul (a b : num) : num :=
  match a, b with
  | Int x, Int y => Int (x * y)
  | _, _ => Float (fmul (to_float a) (to_float b))
  end.

Definition truediv (a b : num) : num :=
  Float (fdiv (to_float a) (to_float b)).

(** [int(a)] *)
Definition int (a : num) : Z :=
  match a with
  | Int z => z
  | Float x => trunc x
  end.

End Numbers.

(** What the renderer observes of a Pillow image object. *)
Record Picture : Type := {
  mode : str;
  format : option str;
  size : Z * Z
}.

(** Pillow: fonts, text measurement, loading and resizing.  [open] reads
    the header only; [Image.convert], [Image.thumbnail] and [ImageDraw.Draw]
    load the picture's data, and resize it, and so may raise as well (a
    truncated or corrupt file, a box that is not positive): the three checks
    say whether they do. *)
Class Pillow : Type := {
  FreeTypeFont : Type;
  truetype : str -> Z -> outcome FreeTypeFont;
  getsize : FreeTypeFont -> str -> Z * Z;
  multiline_textsize : str -> FreeTypeFont -> Z * Z;
  open : str -> outcome Picture;
  thumbnail_size : Z * Z -> Z * Z -> Z * Z;
  convert_check : Picture -> str -> outcome unit;
  thumbnail_check : Picture -> Z * Z -> outcome unit;
  Draw_check : Picture -> outcome unit
}.

(** [image.convert(mode)]: a new picture of that mode and the same size,
    without a format. *)
Definition convert `{Pillow} (image : Picture) (new_mode : str) : outcome Picture :=
  bind (convert_check image new_mode)
       (fun _ => Return {| mode := new_mode; format := None; size := size image |}).

(** [image.thumbnail(size)]: the picture, shrunk in place to fit the box. *)
Definition thumbnail `{Pillow} (image : Picture) (box : Z * Z) : outcome Picture :=
  bind (thumbnail_check image box)
       (fun _ => Return {| mode := mode image; format := format image;
                           size := thumbnail_size (size image) box |}).

(** [ImageDraw.Draw(image)] *)
Definition Draw `{Pillow} (image : Picture) : outcome unit := Draw_check image.

(** One call of [ImageDraw.multiline_text]. *)
Record DrawCall `{Floats} `{Pillow} : Type := {
  xy : num * num;
  drawn_text : str;
  fill : Z * Z * Z;
  drawn_font : FreeTypeFont;
  align : str
}.

(** The file system, as [os] and [Image.save] use it. *)
Class OS `{Floats} `{Pillow} : Type := {
  FS : Type;
  isdir : FS -> str -> bool;
  makedirs : FS -> str -> FS * outcome unit;
  write_image : FS -> str -> option str -> Picture -> list DrawCall
                -> FS * outcome unit
}.

(** ** FontSizer and CaptionLayout *)

Section Fonts.
Context `{Pillow}.
Local Open Scope outcome_scope.

(** The [while] loop of [_maximize_font_size]. *)
Equations? shrink (font text : str) (max_size : Z)
           (font_size : Z) (text_size : Z * Z) : outcome Z
  by wf (Z.to_nat font_size) lt :=
  shrink font text max_size font_size text_size
    with sumbool_of_bool ((fst text_size >? max_size) && (font_size >? 1)) => {
    | left _ =>
        match truetype font (font_size - 1) with
        | Return fontobj =>
            shrink font text max_size (font_size - 1) (getsize fontobj text)
        | Raise e => Raise e
        end
    | right _ => Return font_size }.
Proof.
  apply andb_prop in e. destruct e as [_ e].
  apply Z.gtb_lt in e. lia.
Qed.

Definition _maximize_font_size (font text : str) (max_size : Z) : outcome Z :=
  let font_size := max_size in
  fontobj <- truetype font font_size ;;
  let text_size := getsize fontobj text in
  shrink font text max_size font_size text_size.

(** The [for phrase in phrases] loop of [_optimize_font_size]. *)
Fixpoint fit_phrases (font : str) (max_text_len : Z)
         (phrases : list str) (font_size : Z) : outcome Z :=
  match phrases with
  | [] => Return font_size
  | phrase :: rest =>
      fitted <- _maximize_font_size font phrase max_text_len ;;
      fit_phrases font max_text_len rest (Z.min fitted font_size)
  end.

Definition _optimize_font_size (font text : str)
           (max_font_size min_font_size max_text_len : Z) : outcome (Z * str) :=
  fontobj <- truetype font min_font_size ;;
  let text_size := getsize fontobj text in
  let phrases :=
    if fst text_size >? max_text_len
    then TextSplitter._split text
    else [text] in
  let font_size := max_font_size / len phrases in
  font_size <- fit_phrases font max_text_len phrases font_size ;;
  let text := Py.join [newline] phrases in
  Return (font_size, text).

(** The pixel width of [text] in [font] at [size], as both functions above
    measure it: load the font at that size, take the width of [getsize]. *)
Definition measured (font text : str) (size : Z) : outcome Z :=
  fontobj <- truetype font size ;;
  Return (fst (getsize fontobj text)).

(** [text] at [size] is no wider than [max_size] pixels. *)
Definition fits (font text : str) (max_size size : Z) : Prop :=
  exists w, measured font text size = Return w /\ w <= max_size.

(** The font loads at every size from 1 to [top]. *)
Definition loads (font : str) (top : Z) : Prop :=
  forall size, 1 <= size <= top -> exists fontobj, truetype font size = Return fontobj.

(** Between 1 and [top], a larger size never measures narrower. *)
Definition width_monotone (font text : str) (top : Z) : Prop :=
  forall s s' w w',
    1 <= s <= s' -> s' <= top ->
    measured font text s = Return w -> measured font text s' = Return w' ->
    w <= w'.

(** CaptionLayout as the specification words it: split when the line at the
    smallest single-line size is too wide, start from the ceiling divided by
    the number of phrases, take the minimum with every phrase's maximised
    size, join the phrases with a line break. *)
Fixpoint maximize_all (font : str) (max_line_pixel_width : Z)
         (phrases : list str) : outcome (list Z) :=
  match phrases with
  | [] => Return []
  | phrase :: rest =>
      fitted <- _maximize_font_size font phrase max_line_pixel_width ;;
      others <- maximize_all font max_line_pixel_width rest ;;
      Return (fitted :: others)
  end.

Definition layout_spec (font text : str)
           (max_font_size min_font_size_single_line max_line_pixel_width : Z)
  : outcome (Z * str) :=
  width <- measured font text min_font_size_single_line ;;
  let phrases :=
    if max_line_pixel_width <? width then TextSplitter._split text else [text] in
  let candidate := max_font_size / len phrases in
  sizes <- maximize_all font max_line_pixel_width phrases ;;
  Return (fold_right Z.min candidate sizes, Py.join [newline] phrases).

End Fonts.

(** ** Renderer *)

(** The state a render acts on: the file system and the calls of
    [multiline_text] made so far. *)
Record World `{OS} : Type := {
  disk : FS;
  drawn : list DrawCall
}.

Section Commands.
Context `{OS}.

(** Commands: they transform the world and return or raise. *)
Definition M (A : Type) : Type := World -> World * outcome A.

Definition ret {A : Type} (a : A) : M A := fun w => (w, Return a).

Definition bindM {A B : Type} (m : M A) (k : A -> M B) : M B :=
  fun w =>
    match m w with
    | (w', Return a) => k a w'
    | (w', Raise e) => (w', Raise e)
    end.

Definition lift {A : Type} (m : outcome A) : M A := fun w => (w, m).

End Commands.

Declare Scope io_scope.
Delimit Scope io_scope with io.
Notation "x <- m ;; k" := (bindM m (fun x => k))
  (at level 61, m at next level, right associativity) : io_scope.
Notation "m ;;; k" := (bindM m (fun _ => k))
  (at level 61, right associativity) : io_scope.

Section Renderer.
Context `{OS}.
Local Open Scope io_scope.

(** [for x in items: body(x)] *)
Fixpoint for_each {A : Type} (items : list A) (body : A -> M unit) : M unit :=
  match items with
  | [] => ret tt
  | x :: rest => body x ;;; for_each rest body
  end.

(** The world after further calls of [multiline_text]. *)
Definition appended (w : World) (calls : list DrawCall) : World :=
  {| disk := disk w; drawn := drawn w ++ calls |}.

(** [draw.multiline_text(xy, text, fill, font=font, align=align)] *)
Definition multiline_text (xy : num * num) (text : str) (fill : Z * Z * Z)
           (font : FreeTypeFont) (align : str) : M unit :=
  fun w =>
    (appended w [{| xy := xy; drawn_text := text; fill := fill;
                    drawn_font := font; align := align |}],
     Return tt).

Definition black : Z * Z * Z := (0, 0, 0).
Definition white : Z * Z * Z := (255, 255, 255).
Definition center : str := Py.lit "center".

Definition _draw_outlined_text (text_position : num * num) (text : str)
           (font : FreeTypeFont) (font_size : Z) : M unit :=
  let outline_range := Z.max 1 (font_size / 25) in
  for_each (Py.range (- outline_range) (outline_range + 1)) (fun x =>
    for_each (Py.range (- outline_range) (outline_range + 1)) (fun y =>
      let pos := (add (fst text_position) (Int x),
                  add (snd text_position) (Int y)) in
      multiline_text pos text black font center)) ;;;
  multiline_text text_position text white font center.

(** The offsets of the outline, in the order the loops visit them, and the
    black call at one of them. *)
Definition outline_offsets (outline_range : Z) : list (Z * Z) :=
  list_prod (Py.range (- outline_range) (outline_range + 1))
            (Py.range (- outline_range) (outline_range + 1)).

Definition outline_call (text_position : num * num) (text : str)
           (font : FreeTypeFont) (offset : Z * Z) : DrawCall :=
  {| xy := (add (fst text_position) (Int (fst offset)),
            add (snd text_position) (Int (snd offset)));
     drawn_text := text; fill := black; drawn_font := font; align := center |}.

Definition fill_call (text_position : num * num) (text : str)
           (font : FreeTypeFont) : DrawCall :=
  {| xy := text_position; drawn_text := text; fill := white;
     drawn_font := font; align := center |}.

Definition truthy_int (v : option Z) : bool :=
  match v with
  | Some n => negb (n =? 0)
  | None => false
  end.

(** [v or d] *)
Definition int_or (v : option Z) (d : Z) : Z :=
  match v with
  | Some n => if n =? 0 then d else n
  | None => d
  end.

Definition RGB : str := Py.lit "RGB".
Definition RGBA : str := Py.lit "RGBA".
Definition JPEG : str := Py.lit "JPEG".
Definition PNG : str := Py.lit "PNG".

Definition format_is (image : Picture) (name : str) : bool :=
  match format image with
  | Some f => Py.eqb f name
  | None => false
  end.

Definition _generate (top bottom font background : str)
           (width height : option Z) : M Picture :=
  image <- lift (open background) ;;
  image <- lift
    (if negb (Py.eqb (mode image) RGB || Py.eqb (mode image) RGBA) then
       if format_is image JPEG
       then bind (convert image RGB) (fun image =>
              Return {| mode := mode image; format := Some JPEG;
                        size := size image |})
       else bind (convert image RGBA) (fun image =>
              Return {| mode := mode image; format := Some PNG;
                        size := size image |})
     else Return image) ;;
  let max_dimensions :=
    if truthy_int width || truthy_int height
    then (int_or width 2000, int_or height 2000)
    else (400, 400) in
  image <- lift (thumbnail image max_dimensions) ;;
  let image_size := size image in
  draw <- lift (Draw image) ;;
  let max_font_size := int (truediv (Int (snd image_size)) (Int 5)) in
  let min_font_size_single_line :=
    int (truediv (Int (snd image_size)) (Int 12)) in
  let max_text_len := fst image_size - 20 in
  fitted_top <- lift (_optimize_font_size font top max_font_size
                        min_font_size_single_line max_text_len) ;;
  let '(top_font_size, top) := fitted_top in
  fitted_bottom <- lift (_optimize_font_size font bottom max_font_size
                           min_font_size_single_line max_text_len) ;;
  let '(bottom_font_size, bottom) := fitted_bottom in
  top_font <- lift (truetype font top_font_size) ;;
  bottom_font <- lift (truetype font bottom_font_size) ;;
  let top_text_size := multiline_textsize top top_font in
  let bottom_text_size := multiline_textsize bottom bottom_font in
  let top_text_position_x :=
    sub (truediv (Int (fst image_size)) (Int 2))
        (truediv (Int (fst top_text_size)) (Int 2)) in
  let top_text_position_y := Int 0 in
  let top_text_position := (top_text_position_x, top_text_position_y) in
  let bottom_text_size_x :=
    sub (truediv (Int (fst image_size)) (Int 2))
        (truediv (Int (fst bottom_text_size)) (Int 2)) in
  let bottom_text_size_y :=
    sub (Int (snd image_size))
        (mul (Int (snd bottom_text_size)) (truediv (Int 7) (Int 6))) in
  let bottom_text_position := (bottom_text_size_x, bottom_text_size_y) in
  _draw_outlined_text top_text_position top top_font top_font_size ;;;
  _draw_outlined_text bottom_text_position bottom bottom_font
                      bottom_font_size ;;;
  ret image.

End Renderer.

(** ** ImageArtifact: the [Image] class *)

(** The collaborators of [Image], as far as it uses them: a font has a path,
    a string form and a truth value; a template has a key and finds the
    background of a style; a text has a path and two captions. *)
Record Font : Type := {
  font_path : str;
  font_str : str;
  font_bool : bool
}.

Record Template : Type := {
  key : str;
  get_path : option str -> str
}.

Record Text : Type := {
  text_path : str;
  top : str;
  bottom : str
}.

Record Image : Type := {
  root : option str;
  template : Template;
  style : option str;
  text : Text;
  font : option Font;
  width : option Z;
  height : option Z
}.

(** The [size] argument of the constructor: a dict read with [get]. *)
Record Size : Type := {
  get_width : option Z;
  get_height : option Z
}.

(** [Image.__init__] *)
Definition init (template : Template) (text : Text) (root : option str)
           (style : option str) (font : option Font) (size : option Size) : Image :=
  {| root := root; template := template; style := style; text := text;
     font := font;
     width := match size with Some d => get_width d | None => None end;
     height := match size with Some d => get_height d | None => None end |}.

(** The values [Image.hash] receives. *)
Inductive value : Type :=
| VNone
| VStr (s : str)
| VInt (n : Z)
| VFont (f : Font).

Definition of_str (v : option str) : value :=
  match v with Some s => VStr s | None => VNone end.
Definition of_font (v : option Font) : value :=
  match v with Some f => VFont f | None => VNone end.
Definition of_int_opt (v : option Z) : value :=
  match v with Some n => VInt n | None => VNone end.

(** Truth value of a Python object. *)
Definition truthy (v : value) : bool :=
  match v with
  | VNone => false
  | VStr s => match s with [] => false | _ => true end
  | VInt n => negb (n =? 0)
  | VFont f => font_bool f
  end.

(** [str(v)] *)
Definition to_str (v : value) : str :=
  match v with
  | VNone => Py.lit "None"
  | VStr s => s
  | VInt n => Py.lit (NilEmpty.string_of_int (Z.to_int n))
  | VFont f => font_str f
  end.

(** [str(value or "")] *)
Definition str_or_empty (v : value) : str :=
  to_str (if truthy v then v else VStr []).

(** [Image.hash], applied to its tuple of values *)
Fixpoint feed (sha : list Z) (values : list value) : outcome (list Z) :=
  match values with
  | [] => Return sha
  | v :: rest =>
      (data <- Codec.encode (str_or_empty v) ;;
       feed (Hashlib.update sha data) rest)%outcome
  end.

Definition hash (values : list value) : outcome str :=
  (sha <- feed [] values ;; Return (Hashlib.hexdigest sha))%outcome.

(** The string the digest is computed from: the string forms of the values,
    one after the other. *)
Definition hashed_text (values : list value) : str :=
  List.concat (map str_or_empty values).

Definition overrides (self : Image) : list value :=
  [of_str (style self); of_font (font self);
   of_int_opt (width self); of_int_opt (height self)].

(** The test [path] makes before it appends a digest: one of the four
    fields is true in Python's sense, that is, is neither [None], nor the
    empty string, nor 0, nor a font object that is false. *)
Definition overridden (self : Image) : bool :=
  existsb truthy (overrides self).

(** [Image.path] *)
Definition path (self : Image) : outcome (option str) :=
  if negb (truthy (of_str (root self))) then Return None
  else
    let base :=
      Posixpath.join (match root self with Some r => r | None => [] end)
                     [key (template self); text_path (text self)] in
    if truthy (of_str (style self)) || truthy (of_font (font self))
       || truthy (of_int_opt (width self)) || truthy (of_int_opt (height self))
    then
      (slug <- hash (overrides self) ;;
       Return (Some (base ++ Py.lit "#" ++ slug ++ Py.lit ".img")))%outcome
    else Return (Some (base ++ Py.lit ".img")).

Section Persistence.
Context `{OS}.
Local Open Scope io_scope.

Definition os_isdir (directory : str) : M bool :=
  fun w => (w, Return (isdir (disk w) directory)).

Definition os_makedirs (directory : str) : M unit :=
  fun w =>
    let '(d, r) := makedirs (disk w) directory in
    ({| disk := d; drawn := drawn w |}, r).

Definition data_save (data : Picture) (target : option str)
           (fmt : option str) : M unit :=
  fun w =>
    match target with
    | Some p =>
        let '(d, r) := write_image (disk w) p fmt data (drawn w) in
        ({| disk := d; drawn := drawn w |}, r)
    | None => (w, Raise ValueError)
    end.

(** [Image.save]; the [path] property is recomputed at each use. *)
Definition save (self : Image) : M unit :=
  font_file <- lift (match font self with
                     | Some f => Return (font_path f)
                     | None => Raise AttributeError
                     end) ;;
  data <- _generate (top (text self)) (bottom (text self)) font_file
                    (get_path (template self) (style self))
                    (width self) (height self) ;;
  target <- lift (path self) ;;
  directory <- lift (match target with
                     | Some p => Return (Posixpath.dirname p)
                     | None => Raise TypeError
                     end) ;;
  present <- os_isdir directory ;;
  (if negb present then os_makedirs directory else ret tt) ;;;
  target <- lift (path self) ;;
  target <- lift (path self) ;;
  data_save data target (format data).

End Persistence.

(** ** A reference instance of the libraries

    Floats idealised as exact fractions, a font whose glyphs all advance by
    half the font size, one background picture and a file system that is a
    list of directories and a list of files.  The examples below run on it. *)

Module Reference.

Record fraction : Type := {
  numer : Z;
  denom : Z
}.

Definition fractions : Floats := {|
  float := fraction;
  of_int := fun z => {| numer := z; denom := 1 |};
  fadd := fun a b => {| numer := numer a * denom b + numer b * denom a;
                        denom := denom a * denom b |};
  fsub := fun a b => {| numer := numer a * denom b - numer b * denom a;
                        denom := denom a * denom b |};
  fmul := fun a b => {| numer := numer a * numer b;
                        denom := denom a * denom b |};
  fdiv := fun a b => {| numer := numer a * denom b;
                        denom := denom a * numer b |};
  trunc := fun a => Z.quot (numer a) (denom a)
|}.

Definition font_file : str := Py.lit "impact.ttf".
Definition background_file : str := Py.lit "background.jpg".

(** The lines of a text and the width of its longest line, in characters. *)
Fixpoint line_lengths (text : str) (current : Z) : list Z :=
  match text with
  | [] => [current]
  | c :: rest =>
      if N.eqb c newline
      then current :: line_lengths rest 0
      else line_lengths rest (current + 1)
  end.

(** A loaded font is its size; it loads at every size from 1 on. *)
Definition fixed_pitch : Pillow := {|
  FreeTypeFont := Z;
  truetype := fun file size =>
    if Py.eqb file font_file && (1 <=? size) then Return size
    else Raise OSError;
  getsize := fun fontobj text => (len text * (fontobj / 2), fontobj);
  multiline_textsize := fun text fontobj =>
    (fold_right Z.max 0 (line_lengths text 0) * (fontobj / 2),
     len (line_lengths text 0) * fontobj);
  open := fun file =>
    if Py.eqb file background_file
    then Return {| mode := Py.lit "RGB"; format := Some (Py.lit "JPEG");
                   size := (600, 500) |}
    else Raise IOError;
  thumbnail_size := fun size box =>
    let '(x, y) := size in
    let '(x, y) :=
      if x >? fst box then (fst box, Z.max (y * fst box / x) 1) else (x, y) in
    if y >? snd box then (Z.max (x * snd box / y) 1, snd box) else (x, y);
  convert_check := fun _ _ => Return tt;
  thumbnail_check := fun _ box =>
    if (fst box <=? 0) || (snd box <=? 0) then Raise ValueError else Return tt;
  Draw_check := fun _ => Return tt
|}.

(** Directories and files, by name. *)
Definition files : @OS fractions fixed_pitch := {|
  FS := list str * list str;
  isdir := fun fs d => existsb (Py.eqb d) (fst fs);
  makedirs := fun fs d =>
    if existsb (Py.eqb d) (fst fs) then (fs, Raise FileExistsError)
    else ((d :: fst fs, snd fs), Return tt);
  write_image := fun fs p fmt data calls =>
    if existsb (Py.eqb (Posixpath.dirname p)) (fst fs)
    then ((fst fs, p :: snd fs), Return tt)
    else (fs, Raise IOError)
|}.

(** A request: the template "buzz", a caption, the bold font and a width. *)
Definition impact : Font :=
  {| font_path := font_file; font_str := Py.lit "impact"; font_bool := true |}.

Definition buzz : Template :=
  {| key := Py.lit "buzz"; get_path := fun _ => background_file |}.

Definition hello_world : Text :=
  {| text_path := Py.lit "hello/world"; top := Py.lit "Hello";
     bottom := Py.lit "world" |}.

Definition request (style : option str) (font : option Font)
           (size : option Size) : Image :=
  init buzz hello_world (Some (Py.lit "/data")) style font size.

Definition wide : Size := {| get_width := Some 300; get_height := None |}.

(** Two strings of 72 letters and digits that differ in one letter. *)
Definition style_a : str :=
  Py.lit "TEXTCOLLBYfGiJUETHQ4hAcKSMd5zYpgqf1YRDhkmxHkhPWptrkoyz28wnI9V0aHeAuaKnak".
Definition style_e : str :=
  Py.lit "TEXTCOLLBYfGiJUETHQ4hEcKSMd5zYpgqf1YRDhkmxHkhPWptrkoyz28wnI9V0aHeAuaKnak".

(** A template whose background file does not exist, a font whose file
    does not exist, and an empty disk on which nothing was drawn. *)
Definition lost : Template :=
  {| key := Py.lit "lost"; get_path := fun _ => Py.lit "missing.jpg" |}.

Definition comic : Font :=
  {| font_path := Py.lit "comic.ttf"; font_str := Py.lit "comic";
     font_bool := true |}.

Definition blank : @World fractions fixed_pitch files :=
  @Build_World fractions fixed_pitch files ([], []) [].

End Reference.

(** ** Notions the further properties are stated with *)

(** A lower-case hexadecimal digit. *)
Definition hex_digit (c : Py.char) : bool :=
  ((48 <=? c) && (c <=? 57) || (97 <=? c) && (c <=? 102))%N.

(** A code point UTF-8 can encode: up to U+10FFFF and no surrogate. *)
Definition encodable (c : Py.char) : bool :=
  ((c <? 1114112) && negb ((55296 <=? c) && (c <=? 57343)))%N.

(** A string without a path separator. *)
Definition no_sep (s : str) : bool :=
  forallb (fun c => negb (N.eqb c Posixpath.sep)) s.

(** The same image with another width and height. *)
Definition resized (self : Image) (width height : option Z) : Image :=
  {| root := root self; template := template self; style := style self;
     text := text self; font := font self;
     width := width; height := height |}.

(** All the calls [_draw_outlined_text] makes for one caption. *)
Definition caption_calls `{OS} (text_position : num * num) (text : str)
           (font : FreeTypeFont) (font_size : Z) : list DrawCall :=
  map (outline_call text_position text font)
      (outline_offsets (Z.max 1 (font_size / 25)))
  ++ [fill_call text_position text font].

(** A request with two-letter captions, with and without a root, and the
    picture the reference background renders to. *)
Module Samples.

Definition hi_yo : Text :=
  {| text_path := Py.lit "hi/yo"; top := Py.lit "Hi"; bottom := Py.lit "yo" |}.

Definition plain : Image :=
  init Reference.buzz hi_yo (Some (Py.lit "/data")) None
       (Some Reference.impact) None.

Definition rootless : Image :=
  init Reference.buzz hi_yo None None (Some Reference.impact) None.

Definition rendered : Picture :=
  {| mode := Py.lit "RGB"; format := Some (Py.lit "JPEG"); size := (400, 333) |}.

Definition target : str :=
  Py.lit "/data/buzz/hi/yo#05199deca16614131327f2c3fea9031c.img".

End Samples.

(** The data of the picture cannot be loaded, as for a truncated or corrupt
    file: every operation that needs the data raises. *)
Definition data_unreadable `{Pillow} : Prop :=
  forall p,
    (forall new_mode, exists e, convert_check p new_mode = Raise e)
    /\ (forall box, exists e, thumbnail_check p box = Raise e)
    /\ (exists e, Draw_check p = Raise e).

(** The positions of the two captions, as [_generate] computes them from the
    size of the picture and the size of the caption's text block: in Python's
    arithmetic, where [/] between integers is a float division. *)
Definition top_position `{Floats} (image_size text_size : Z * Z) : num * num :=
  (sub (truediv (Int (fst image_size)) (Int 2))
       (truediv (Int (fst text_size)) (Int 2)),
   Int 0).

Definition bottom_position `{Floats} (image_size text_size : Z * Z) : num * num :=
  (sub (truediv (Int (fst image_size)) (Int 2))
       (truediv (Int (fst text_size)) (Int 2)),
   sub (Int (snd image_size))
       (mul (Int (snd text_size)) (truediv (Int 7) (Int 6)))).

(** Python's floats as they are: IEEE 754 binary64, every operation rounded
    to the nearest float. *)
Module Binary64.

(** [float(z)] *)
Definition of_Z (z : Z) : PrimFloat.float :=
  if z <? 0
  then PrimFloat.opp (PrimFloat.of_uint63 (Uint63Axioms.of_Z (- z)))
  else PrimFloat.of_uint63 (Uint63Axioms.of_Z z).

(** [int(x)], towards zero; Python raises on an infinity or a NaN, which
    quotients of picture heights never are. *)
Definition to_Z (x : PrimFloat.float) : Z :=
  match FloatOps.Prim2SF x with
  | SpecFloat.S754_finite s m e =>
      let magnitude :=
        if 0 <=? e then Z.pos m * 2 ^ e else Z.quot (Z.pos m) (2 ^ (- e)) in
      if s then - magnitude else magnitude
  | _ => 0
  end.

Definition floats : Floats := {|
  float := PrimFloat.float;
  of_int := of_Z;
  fadd := PrimFloat.add;
  fsub := PrimFloat.sub;
  fmul := PrimFloat.mul;
  fdiv := PrimFloat.div;
  trunc := to_Z
|}.

(** The reference file system and the empty world, over these floats. *)
Definition files : @OS floats Reference.fixed_pitch := {|
  FS := list str * list str;
  isdir := fun fs d => existsb (Py.eqb d) (fst fs);
  makedirs := fun fs d =>
    if existsb (Py.eqb d) (fst fs) then (fs, Raise FileExistsError)
    else ((d :: fst fs, snd fs), Return tt);
  write_image := fun fs p fmt data calls =>
    if existsb (Py.eqb (Posixpath.dirname p)) (fst fs)
    then ((fst fs, p :: snd fs), Return tt)
    else (fs, Raise IOError)
|}.

Definition blank : @World floats Reference.fixed_pitch files :=
  @Build_World floats Reference.fixed_pitch files ([], []) [].

(** The exact value of a finite float: [(m, e)] stands for [m * 2 ** e]. *)
Definition dyadic (x : PrimFloat.float) : option (Z * Z) :=
  match FloatOps.Prim2SF x with
  | SpecFloat.S754_finite s m e => Some (if s then Z.neg m else Z.pos m, e)
  | SpecFloat.S754_zero _ => Some (0, 0)
  | _ => None
  end.

End Binary64.

(** C7's words, read on the constructor: the default of each of the four
    fields is [None], a field deviates from its default when it is not
    [None], a missing field is one that is [None], and the string form of a
    field that is there is [str] of it. *)
Definition is_missing (v : value) : bool :=
  match v with
  | VNone => true
  | _ => false
  end.

Definition deviates (self : Image) : bool :=
  existsb (fun v => negb (is_missing v)) (overrides self).

Definition string_form (v : value) : str :=
  if is_missing v then [] else to_str v.

Definition digest_of_string_forms (values : list value) : outcome str :=
  bind (Codec.encode (List.concat (map string_form values)))
       (fun data => Return (Hashlib.hex (Hashlib.md5 data))).

(** A size with a width of 0. *)
Definition zero_width : Size := {| get_width := Some 0; get_height := None |}.

(** * Properties *)

(** The doctests of [_split]. *)
Example split_hello :
  TextSplitter._split (Py.lit "Hello, world!")
  = [Py.lit "Hello,"; Py.lit "world!"].
Proof. reflexivity. Qed.

Example split_phrase :
  TextSplitter._split (Py.lit "This is a phrase that can be split.")
  = [Py.lit "This is a phrase"; Py.lit "that can be split."].
Proof. reflexivity. Qed.

Example split_unsplittable :
  TextSplitter._split (Py.lit "This_is_a_phrase_that_can_not_be_split.")
  = [Py.lit "This_is_a_phrase_that_can_not_be_split."].
Proof. reflexivity. Qed.

Example md5_empty :
  Hashlib.hexdigest [] = Py.lit "d41d8cd98f00b204e9800998ecf8427e".
Proof. vm_compute. reflexivity. Qed.

Example md5_abc :
  Hashlib.hexdigest [97; 98; 99] = Py.lit "900150983cd24fb0d6963f7d28e17f72".
Proof. vm_compute. reflexivity. Qed.

Example dirname_ex :
  Posixpath.dirname (Py.lit "/data/tpl/txt.img") = Py.lit "/data/tpl"
  /\ Posixpath.dirname (Py.lit "txt.img") = Py.lit ""
  /\ Posixpath.dirname (Py.lit "/txt.img") = Py.lit "/"
  /\ Posixpath.dirname (Py.lit "a//b") = Py.lit "a"
  /\ Posixpath.join (Py.lit "/data") [Py.lit "tpl"; Py.lit "txt"] = Py.lit "/data/tpl/txt"
  /\ Posixpath.join (Py.lit "/data/") [Py.lit "/tpl"; Py.lit "txt"] = Py.lit "/tpl/txt".
Proof. vm_compute. repeat split. Qed.

(** ** TextSplitter *)

Section SplitFacts.
Import TextSplitter.

Lemma range_nil lo hi : hi <= lo -> Py.range lo hi = [].
Proof.
  intros Hle. unfold Py.range.
  replace (Z.to_nat (hi - lo)) with O by lia. reflexivity.
Qed.

Lemma range_cons lo hi : lo < hi -> Py.range lo hi = lo :: Py.range (lo + 1) hi.
Proof.
  intros Hlt. unfold Py.range.
  replace (Z.to_nat (hi - lo)) with (S (Z.to_nat (hi - (lo + 1)))) by lia.
  cbn [seq map]. f_equal; [lia|].
  rewrite <- seq_shift, map_map.
  apply map_ext. intros k. lia.
Qed.

Lemma In_range lo hi i : In i (Py.range lo hi) <-> lo <= i < hi.
Proof.
  unfold Py.range. rewrite in_map_iff. split.
  - intros [k [<- Hk]]. apply in_seq in Hk. lia.
  - intros Hi. exists (Z.to_nat (i - lo)). split; [lia|].
    apply in_seq. lia.
Qed.

Lemma length_range lo hi : List.length (Py.range lo hi) = Z.to_nat (hi - lo).
Proof. unfold Py.range. now rewrite length_map, length_seq. Qed.

(** The first element of a filtered range that passes a second test. *)
Lemma find_filter_range (p q : Z -> bool) hi :
  forall n lo, Z.to_nat (hi - lo) = n ->
    match find q (filter p (Py.range lo hi)) with
    | Some j => lo <= j < hi /\ p j = true /\ q j = true /\
                forall k, lo <= k < j -> p k = true -> q k = false
    | None => forall k, lo <= k < hi -> p k = true -> q k = false
    end.
Proof.
  induction n as [|n IH]; intros lo Hn.
  - rewrite range_nil by lia. cbn. intros k Hk. lia.
  - rewrite range_cons by lia. cbn [filter].
    specialize (IH (lo + 1) ltac:(lia)).
    destruct (p lo) eqn:Hp; cbn [find].
    + destruct (q lo) eqn:Hq.
      * repeat split; try lia; auto.
      * destruct (find q (filter p (Py.range (lo + 1) hi))) as [j|].
        -- destruct IH as (Hj & Hpj & Hqj & Hfirst).
           repeat split; try lia; auto.
           intros k Hk Hpk. destruct (Z.eq_dec k lo) as [->|Hne]; auto.
           apply Hfirst; auto. lia.
        -- intros k Hk Hpk. destruct (Z.eq_dec k lo) as [->|Hne]; auto.
           apply IH; auto. lia.
    + destruct (find q (filter p (Py.range (lo + 1) hi))) as [j|].
      * destruct IH as (Hj & Hpj & Hqj & Hfirst).
        repeat split; try lia; auto.
        intros k Hk Hpk. destruct (Z.eq_dec k lo) as [->|Hne]; [congruence|].
        apply Hfirst; auto. lia.
      * intros k Hk Hpk. destruct (Z.eq_dec k lo) as [->|Hne]; [congruence|].
        apply IH; auto. lia.
Qed.

Lemma fold_min_le xs : forall x, fold_left Z.min xs x <= x.
Proof.
  induction xs as [|y ys IH]; intros x; cbn; [lia|].
  specialize (IH (Z.min x y)). lia.
Qed.

Lemma fold_min_lower xs : forall x y, In y xs -> fold_left Z.min xs x <= y.
Proof.
  induction xs as [|z zs IH]; intros x y Hin; cbn; [destruct Hin|].
  destruct Hin as [->|Hin].
  - pose proof (fold_min_le zs (Z.min x y)). lia.
  - now apply IH.
Qed.

Lemma fold_min_in xs : forall x, In (fold_left Z.min xs x) (x :: xs).
Proof.
  induction xs as [|z zs IH]; intros x; cbn; [now left|].
  destruct (IH (Z.min x z)) as [Heq|Hin].
  - rewrite <- Heq.
    destruct (Z.min_spec x z) as [[_ E]|[_ E]]; rewrite E; auto.
  - right. now right.
Qed.

Lemma min_spec l m :
  Py.min l = Some m -> In m l /\ forall y, In y l -> m <= y.
Proof.
  destruct l as [|x xs]; cbn; [discriminate|].
  intros [= <-]. split.
  - apply fold_min_in.
  - intros y [<-|Hin]; [apply fold_min_le | now apply fold_min_lower].
Qed.

(** The loop of [_split] stops at the first index whose proximity is the
    minimum. *)
Lemma scan_find text (f : Z -> Z) props m result :
  Py.min props = Some m ->
  forall l,
    scan text props (combine (map f l) l) result =
    match find (fun j => f j =? m) l with
    | Some j => [Py.slice text None (Some j); Py.slice text (Some (j + 1)) None]
    | None => result
    end.
Proof.
  intros Hm. induction l as [|j l IH]; cbn; [reflexivity|].
  rewrite Hm. destruct (f j =? m); auto.
Qed.

Lemma is_space_at_true text i :
  is_space_at text i = true <-> Py.item text i = Some space.
Proof.
  unfold is_space_at. destruct (Py.item text i) as [c|].
  - rewrite N.eqb_eq. split; congruence.
  - split; discriminate.
Qed.

Lemma slice_prefix (text : str) j :
  0 <= j <= len text ->
  Py.slice text None (Some j) = firstn (Z.to_nat j) text.
Proof.
  intros Hj. unfold Py.slice, Py.bound.
  destruct (j <? 0) eqn:E; [apply Z.ltb_lt in E; lia|].
  rewrite Z.min_l by lia. cbn [skipn Z.to_nat]. now rewrite Z.sub_0_r.
Qed.

Lemma slice_suffix (text : str) j :
  0 <= j <= len text ->
  Py.slice text (Some j) None = skipn (Z.to_nat j) text.
Proof.
  intros Hj. unfold Py.slice, Py.bound.
  destruct (j <? 0) eqn:E; [apply Z.ltb_lt in E; lia|].
  rewrite Z.min_l by lia.
  apply firstn_all2. rewrite length_skipn. unfold Py.len. lia.
Qed.

Lemma slice_interior (text : str) :
  3 <= len text ->
  Py.slice text (Some 1) (Some (-1))
  = firstn (Z.to_nat (len text - 2)) (skipn 1 text).
Proof.
  intros Hn. unfold Py.slice, Py.bound. cbn [Z.ltb Z.compare].
  rewrite Z.min_l, Z.max_r by lia.
  do 2 f_equal. lia.
Qed.

Lemma interior_space_test (text : str) :
  3 <= len text ->
  existsb (N.eqb space) (Py.slice text (Some 1) (Some (-1))) = true
  <-> interior_space text.
Proof.
  intros Hn. rewrite slice_interior by assumption.
  rewrite existsb_exists. unfold interior_space, Py.item. split.
  - intros [c [Hin Hc]]. apply N.eqb_eq in Hc. subst c.
    apply In_nth_error in Hin. destruct Hin as [k Hk].
    assert (Hlt : (k < Z.to_nat (len text - 2))%nat).
    { pose proof (proj1 (nth_error_Some _ k) ltac:(rewrite Hk; discriminate))
        as Hsome.
      rewrite length_firstn in Hsome. lia. }
    rewrite nth_error_firstn in Hk.
    destruct (Nat.ltb_spec k (Z.to_nat (len text - 2))); [|lia].
    rewrite nth_error_skipn in Hk.
    exists (Z.of_nat (1 + k)). split; [lia|].
    now rewrite Nat2Z.id.
  - intros [i [Hi Hc]]. exists space. split; [|apply N.eqb_refl].
    apply nth_error_In with (n := (Z.to_nat i - 1)%nat).
    rewrite nth_error_firstn.
    destruct (Nat.ltb_spec (Z.to_nat i - 1) (Z.to_nat (len text - 2))); [|lia].
    rewrite nth_error_skipn.
    replace (1 + (Z.to_nat i - 1))%nat with (Z.to_nat i) by lia.
    assumption.
Qed.

(** What [_split] returns when it splits: the cut is at a closest space. *)
Lemma split_at_closest (text : str) :
  3 <= len text -> interior_space text ->
  exists j, closest_space text j /\
    _split text = [firstn (Z.to_nat j) text; skipn (Z.to_nat (j + 1)) text].
Proof.
  intros Hn Hint. unfold _split.
  apply Z.leb_le in Hn as Hn'. rewrite Hn'.
  apply interior_space_test in Hint as Htest; [|assumption]. rewrite Htest.
  cbn [andb].
  set (f := fun i => Z.abs (i - len text / 2)).
  set (indices := filter (is_space_at text) (Py.range 0 (len text))).
  destruct Hint as [i0 [Hi0 Hc0]].
  assert (Hin0 : In i0 indices).
  { apply filter_In. split; [apply In_range; lia | now apply is_space_at_true]. }
  destruct (Py.min (map f indices)) as [m|] eqn:Hmin.
  2:{ destruct indices; [destruct Hin0 | discriminate]. }
  rewrite (scan_find text f _ m _ Hmin).
  destruct (min_spec _ _ Hmin) as [Hm_in Hm_le].
  pose proof (find_filter_range (is_space_at text) (fun j => f j =? m)
                (len text) _ 0 eq_refl) as Hfind.
  fold indices in Hfind.
  destruct (find (fun j => f j =? m) indices) as [j|].
  - destruct Hfind as (Hj & Hpj & Hqj & Hfirst).
    apply Z.eqb_eq in Hqj.
    exists j. split.
    + split; [assumption|]. split; [now apply is_space_at_true|].
      intros k Hk Hck. fold (f j) (f k).
      assert (Hkin : In k indices).
      { apply filter_In. split; [now apply In_range | now apply is_space_at_true]. }
      split.
      * rewrite Hqj. apply Hm_le. now apply in_map.
      * intros Heq. destruct (Z.lt_ge_cases k j) as [Hlt|Hge]; [|assumption].
        exfalso. assert (Hq : (f k =? m) = false).
        { apply Hfirst; [lia | now apply is_space_at_true]. }
        apply Z.eqb_neq in Hq. congruence.
    + rewrite slice_prefix, slice_suffix by lia. reflexivity.
  - exfalso. apply in_map_iff in Hm_in. destruct Hm_in as [k [Hfk Hk]].
    apply filter_In in Hk. destruct Hk as [Hk Hpk]. apply In_range in Hk.
    specialize (Hfind k Hk Hpk). apply Z.eqb_neq in Hfind. congruence.
Qed.

Lemma split_unchanged (text : str) :
  len text < 3 \/ ~ interior_space text -> _split text = [text].
Proof.
  intros Hno. unfold _split.
  destruct (Z.leb_spec 3 (len text)) as [Hn|Hn]; [|reflexivity].
  destruct Hno as [Hlt|Hno]; [lia|].
  destruct (existsb (N.eqb space) (Py.slice text (Some 1) (Some (-1)))) eqn:E;
    [|reflexivity].
  exfalso. apply Hno. now apply interior_space_test.
Qed.

(** The closest space is never the first or the last character when there is
    an interior space. *)
Lemma closest_space_interior (text : str) j :
  interior_space text -> closest_space text j -> 0 < j < len text - 1.
Proof.
  intros [i [Hi Hc]] (Hj & Hcj & Hbest).
  destruct (Hbest i ltac:(lia) Hc) as [Hle Htie].
  assert (Hdiv : 2 * (len text / 2) <= len text < 2 * (len text / 2) + 2).
  { pose proof (Z.div_mod (len text) 2 ltac:(lia)).
    pose proof (Z.mod_pos_bound (len text) 2 ltac:(lia)). lia. }
  destruct (Z.eq_dec j 0) as [->|Hj0]; [lia|].
  destruct (Z.eq_dec j (len text - 1)) as [->|Hj1]; [|lia].
  assert (Htie' : Z.abs (i - len text / 2) = Z.abs (len text - 1 - len text / 2) -> False)
    by (intros E; specialize (Htie E); lia).
  lia.
Qed.


Lemma cut_at_index (text : str) j :
  Py.item text j = Some space -> 0 <= j ->
  len (firstn (Z.to_nat j) text) = j /\
  text = firstn (Z.to_nat j) text ++ space :: skipn (Z.to_nat (j + 1)) text.
Proof.
  intros Hitem Hj. unfold Py.item in Hitem.
  apply nth_error_split in Hitem. destruct Hitem as (l1 & l2 & Htext & Hlen).
  replace (Z.to_nat (j + 1)) with (S (List.length l1)) by lia.
  rewrite <- Hlen, Htext.
  rewrite firstn_app, Nat.sub_diag, firstn_all, firstn_O, app_nil_r.
  split.
  - unfold Py.len. lia.
  - f_equal. f_equal.
    replace (l1 ++ space :: l2) with ((l1 ++ [space]) ++ l2)
      by (now rewrite <- app_assoc).
    rewrite skipn_app, length_app. cbn [List.length].
    replace (S (List.length l1) - (List.length l1 + 1))%nat with O by lia.
    rewrite skipn_all2 by (rewrite length_app; cbn; lia).
    reflexivity.
Qed.

(** The two lines of a split text. *)
Lemma split_lines (text : str) :
  3 <= len text -> interior_space text ->
  exists j line1 line2,
    closest_space text j /\
    _split text = [line1; line2] /\
    len line1 = j /\
    text = line1 ++ space :: line2.
Proof.
  intros Hn Hint.
  destruct (split_at_closest text Hn Hint) as [j [Hj Hsplit_eq]].
  exists j, (firstn (Z.to_nat j) text), (skipn (Z.to_nat (j + 1)) text).
  assert (Hitem : Py.item text j = Some space) by apply Hj.
  assert (Hpos : 0 <= j) by apply Hj.
  destruct (cut_at_index text j Hitem Hpos) as [Hlen Htext].
  auto.
Qed.

Lemma interior_space_dec (text : str) :
  3 <= len text -> {interior_space text} + {~ interior_space text}.
Proof.
  intros Hn.
  destruct (existsb (N.eqb space) (Py.slice text (Some 1) (Some (-1)))) eqn:E.
  - left. now apply interior_space_test.
  - right. intros Hint. apply interior_space_test in Hint; [congruence|assumption].
Qed.

End SplitFacts.

(** C1. [_split] returns the text unchanged, as a single line, when it is
    shorter than 3 characters or has no space strictly between its first and
    last character; otherwise it returns exactly two lines, cut at the space
    whose index is closest to [len(text) // 2], the leftmost one among equally
    close spaces, and that space is in neither line. *)
Theorem split_single_line_or_cut_at_closest_space (text : str) :
  (len text < 3 \/ ~ TextSplitter.interior_space text ->
   TextSplitter._split text = [text])
  /\
  (~ (len text < 3 \/ ~ TextSplitter.interior_space text) ->
   exists j line1 line2,
     TextSplitter.closest_space text j /\
     TextSplitter._split text = [line1; line2] /\
     len line1 = j /\
     text = line1 ++ space :: line2).
Proof.
  split; [apply split_unchanged|].
  intros Hsplit.
  assert (Hn : 3 <= len text) by lia.
  destruct (interior_space_dec text Hn) as [Hint|Hno].
  - now apply split_lines.
  - exfalso. apply Hsplit. now right.
Qed.

Lemma split_single_line_or_cut_at_closest_space_witness :
  TextSplitter._split (Py.lit "ab") = [Py.lit "ab"]
  /\ exists j line1 line2,
       TextSplitter.closest_space (Py.lit "Hello, world!") j /\
       TextSplitter._split (Py.lit "Hello, world!") = [line1; line2] /\
       len line1 = j /\
       Py.lit "Hello, world!" = line1 ++ space :: line2.
Proof.
  split.
  - apply (split_single_line_or_cut_at_closest_space (Py.lit "ab")).
    left. vm_compute. reflexivity.
  - apply (split_single_line_or_cut_at_closest_space (Py.lit "Hello, world!")).
    intros [Hshort|Hno].
    + vm_compute in Hshort. discriminate.
    + apply Hno. exists 6. split; [vm_compute; split; reflexivity | reflexivity].
Defined.

(** C10. Whenever [_split] returns two lines, both are non-empty and the
    first line, a single space and the second line make up the input again;
    the index of the cut is neither the first nor the last index of the
    string, although leading and trailing spaces are among the candidates. *)
Theorem split_two_lines_rejoin (text line1 line2 : str) :
  TextSplitter._split text = [line1; line2] ->
  line1 <> [] /\ line2 <> [] /\
  line1 ++ [space] ++ line2 = text /\
  0 < len line1 < len text - 1 /\
  TextSplitter.closest_space text (len line1).
Proof.
  intros Hsplit.
  destruct (Z.lt_ge_cases (len text) 3) as [Hshort|Hn].
  { rewrite split_unchanged in Hsplit by (now left). discriminate. }
  destruct (interior_space_dec text Hn) as [Hint|Hno].
  2:{ rewrite split_unchanged in Hsplit by (now right). discriminate. }
  destruct (split_lines text Hn Hint)
    as (j & l1 & l2 & Hj & Heq & Hlen & Htext).
  rewrite Heq in Hsplit. injection Hsplit as <- <-.
  pose proof (closest_space_interior text j Hint Hj) as Hinner.
  assert (Hlen2 : len text = len l1 + 1 + len l2).
  { rewrite Htext at 1. unfold Py.len. rewrite length_app. cbn [List.length]. lia. }
  rewrite Hlen.
  split; [intros ->; cbn in Hlen; lia|].
  split; [intros ->; cbn in Hlen2; lia|].
  split; [now rewrite Htext|].
  split; [lia | assumption].
Qed.

Lemma split_two_lines_rejoin_witness :
  Py.lit "Hello," <> [] /\ Py.lit "world!" <> [] /\
  Py.lit "Hello," ++ [space] ++ Py.lit "world!" = Py.lit "Hello, world!" /\
  0 < len (Py.lit "Hello,") < len (Py.lit "Hello, world!") - 1 /\
  TextSplitter.closest_space (Py.lit "Hello, world!") (len (Py.lit "Hello,")).
Proof.
  apply (split_two_lines_rejoin (Py.lit "Hello, world!")). reflexivity.
Defined.

(** ** FontSizer *)

Section FontFacts.
Context `{Pillow}.

Lemma shrink_step font text max_size font_size text_size :
  shrink font text max_size font_size text_size =
  if (fst text_size >? max_size) && (font_size >? 1)
  then match truetype font (font_size - 1) with
       | Return fontobj =>
           shrink font text max_size (font_size - 1) (getsize fontobj text)
       | Raise e => Raise e
       end
  else Return font_size.
Proof.
  simp shrink.
  destruct (sumbool_of_bool ((fst text_size >? max_size) && (font_size >? 1)))
    as [E|E]; simp shrink; cbn; rewrite E; reflexivity.
Qed.

Lemma measured_loaded font text size fontobj :
  truetype font size = Return fontobj ->
  measured font text size = Return (fst (getsize fontobj text)).
Proof. intros Hload. unfold measured. now rewrite Hload. Qed.

Lemma not_fits_wider font text max_size size fontobj :
  truetype font size = Return fontobj ->
  max_size < fst (getsize fontobj text) ->
  ~ fits font text max_size size.
Proof.
  intros Hload Hwide [w [Hw Hle]].
  rewrite (measured_loaded _ _ _ _ Hload) in Hw. injection Hw as <-. lia.
Qed.

(** The loop only moves down, and never below 1 unless it started there. *)
Lemma shrink_bounds font text max_size :
  forall n font_size text_size r,
    Z.to_nat font_size = n ->
    shrink font text max_size font_size text_size = Return r ->
    Z.min 1 font_size <= r <= font_size.
Proof.
  induction n as [|n IH]; intros font_size text_size r Hn;
    rewrite shrink_step;
    destruct ((fst text_size >? max_size) && (font_size >? 1)) eqn:E;
    try (intros [= <-]; lia).
  - apply andb_prop in E. destruct E as [_ E]. apply Z.gtb_lt in E. lia.
  - apply andb_prop in E. destruct E as [_ E]. apply Z.gtb_lt in E.
    destruct (truetype font (font_size - 1)) as [fontobj|e]; [|discriminate].
    intros Hr. apply IH in Hr; lia.
Qed.

(** Where the loop stops, the size fits or is at most 1. *)
Lemma shrink_stop font text max_size font_size fontobj :
  truetype font font_size = Return fontobj ->
  (fst (getsize fontobj text) >? max_size) && (font_size >? 1) = false ->
  fits font text max_size font_size
  \/ (font_size <= 1 /\ ~ fits font text max_size font_size).
Proof.
  intros Hload E.
  destruct (Z.gtb_spec (fst (getsize fontobj text)) max_size) as [Hw|Hw].
  - right. cbn in E. destruct (Z.gtb_spec font_size 1); [discriminate|].
    split; [lia|]. now apply (not_fits_wider _ _ _ _ fontobj).
  - left. exists (fst (getsize fontobj text)).
    split; [now apply measured_loaded | lia].
Qed.

(** The loop stops at the first size, going down, that fits or is 1. *)
Lemma shrink_scan font text max_size :
  forall n font_size fontobj,
    Z.to_nat font_size = n ->
    truetype font font_size = Return fontobj ->
    (forall s, 1 <= s < font_size -> exists f, truetype font s = Return f) ->
    exists r,
      shrink font text max_size font_size (getsize fontobj text) = Return r /\
      (forall s, r < s <= font_size -> ~ fits font text max_size s) /\
      (fits font text max_size r \/ (r <= 1 /\ ~ fits font text max_size r)).
Proof.
  induction n as [|n IH]; intros font_size fontobj Hn Hload Hbelow;
    rewrite shrink_step;
    destruct ((fst (getsize fontobj text) >? max_size) && (font_size >? 1)) eqn:E;
    try (exists font_size; split; [reflexivity|]; split; [intros s Hs; lia|];
         now apply (shrink_stop _ _ _ _ fontobj)).
  - apply andb_prop in E. destruct E as [_ E]. apply Z.gtb_lt in E. lia.
  - apply andb_prop in E. destruct E as [Ewide E].
    apply Z.gtb_lt in E. apply Z.gtb_lt in Ewide.
    destruct (Hbelow (font_size - 1) ltac:(lia)) as [f Hf]. rewrite Hf.
    destruct (IH (font_size - 1) f ltac:(lia) Hf) as (r & Hr & Habove & Hstop).
    { intros s Hs. apply Hbelow. lia. }
    exists r. split; [assumption|]. split; [|assumption].
    intros s Hs. destruct (Z.eq_dec s font_size) as [->|Hne].
    + now apply (not_fits_wider _ _ _ _ fontobj).
    + apply Habove. lia.
Qed.

Lemma maximize_bounds font text max_size r :
  _maximize_font_size font text max_size = Return r ->
  Z.min 1 max_size <= r <= max_size.
Proof.
  unfold _maximize_font_size, bind.
  destruct (truetype font max_size) as [fontobj|e]; [|discriminate].
  now apply shrink_bounds with (n := Z.to_nat max_size).
Qed.

Lemma fold_min_push sizes : forall a b,
  fold_right Z.min (Z.min a b) sizes = Z.min a (fold_right Z.min b sizes).
Proof.
  induction sizes as [|x xs IH]; intros a b; cbn; [reflexivity|].
  rewrite IH. lia.
Qed.

Lemma fold_min_below sizes : forall b, fold_right Z.min b sizes <= b.
Proof.
  induction sizes as [|x xs IH]; intros b; cbn; [lia|].
  specialize (IH b). lia.
Qed.

(** The loop over the phrases computes the minimum of the candidate and the
    maximised sizes. *)
Lemma fit_phrases_min font max_text_len phrases :
  forall font_size,
    fit_phrases font max_text_len phrases font_size =
    bind (maximize_all font max_text_len phrases)
         (fun sizes => Return (fold_right Z.min font_size sizes)).
Proof.
  induction phrases as [|phrase rest IH]; intros font_size; cbn; [reflexivity|].
  destruct (_maximize_font_size font phrase max_text_len) as [fitted|e];
    cbn; [|reflexivity].
  rewrite IH.
  destruct (maximize_all font max_text_len rest) as [others|e]; cbn; [|reflexivity].
  now rewrite fold_min_push.
Qed.

Lemma scan_one_or_two text props pairs result :
  TextSplitter.scan text props pairs result = result
  \/ len (TextSplitter.scan text props pairs result) = 2.
Proof.
  induction pairs as [|[i j] rest IH]; cbn; [now left|].
  destruct (Py.min props) as [m|]; [|now left].
  destruct (i =? m); [now right | assumption].
Qed.

Lemma split_one_or_two (text : str) :
  len (TextSplitter._split text) = 1 \/ len (TextSplitter._split text) = 2.
Proof.
  unfold TextSplitter._split.
  destruct ((3 <=? len text) && _); [|now left].
  match goal with |- context [TextSplitter.scan ?t ?p ?c ?r] =>
    destruct (scan_one_or_two t p c r) as [E|E]; [rewrite E; now left | now right]
  end.
Qed.

(** The size the layout chooses is below its starting candidate. *)
Lemma optimize_below_candidate font text max_font_size min_font_size
      max_text_len size text' :
  0 <= max_font_size ->
  _optimize_font_size font text max_font_size min_font_size max_text_len
  = Return (size, text') ->
  size <= max_font_size.
Proof.
  intros Hpos. unfold _optimize_font_size.
  destruct (truetype font min_font_size) as [fontobj|e]; cbn; [|discriminate].
  rewrite fit_phrases_min.
  set (phrases := if fst (getsize fontobj text) >? max_text_len
                  then TextSplitter._split text else [text]).
  assert (Hlen : len phrases = 1 \/ len phrases = 2).
  { subst phrases. destruct (_ >? _); [apply split_one_or_two | now left]. }
  destruct (maximize_all font max_text_len phrases) as [sizes|e];
    cbn; [|discriminate].
  intros [= <- _].
  pose proof (fold_min_below sizes (max_font_size / len phrases)).
  assert (max_font_size / len phrases <= max_font_size).
  { destruct Hlen as [-> | ->]; [rewrite Z.div_1_r; lia|].
    apply Z.div_le_upper_bound; lia. }
  lia.
Qed.

End FontFacts.

(** The reference font: what it measures. *)
Lemma fixed_pitch_loads top :
  @loads Reference.fixed_pitch Reference.font_file top.
Proof.
  intros size Hsize. exists size. cbn.
  destruct (Z.leb_spec 1 size); [reflexivity | lia].
Qed.

Lemma fixed_pitch_measured text size w :
  @measured Reference.fixed_pitch Reference.font_file text size = Return w ->
  w = len text * (size / 2).
Proof.
  unfold measured. cbn.
  destruct (1 <=? size); cbn; [|discriminate]. now intros [= <-].
Qed.

Lemma fixed_pitch_monotone text top :
  @width_monotone Reference.fixed_pitch Reference.font_file text top.
Proof.
  intros s s' w w' Hs Hs' Hw Hw'.
  apply fixed_pitch_measured in Hw, Hw'. subst w w'.
  apply Z.mul_le_mono_nonneg_l; [unfold Py.len; lia|].
  apply Z.div_le_mono; lia.
Qed.

(** C3. Provided the measured width never decreases when the font size
    grows, [_maximize_font_size] starts at its ceiling (the code starts from
    [max_size], the pixel width it is given) and goes down by 1 while the
    text is too wide and the size is above 1: it returns the largest size
    whose measured width is at most [max_pixel_width], so that the sizes that
    fit are exactly those up to it, or 1 when no size fits. *)
Theorem maximize_largest_fitting_size `{Pillow} (font text : str) (max_size : Z) :
  1 <= max_size ->
  loads font max_size ->
  width_monotone font text max_size ->
  exists r,
    _maximize_font_size font text max_size = Return r /\
    1 <= r <= max_size /\
    ((fits font text max_size r /\
      forall s, 1 <= s <= max_size -> (fits font text max_size s <-> s <= r))
     \/
     (r = 1 /\ forall s, 1 <= s <= max_size -> ~ fits font text max_size s)).
Proof.
  intros Hpos Hloads Hmono.
  destruct (Hloads max_size ltac:(lia)) as [fontobj Hfont].
  destruct (shrink_scan font text max_size (Z.to_nat max_size) max_size fontobj
              eq_refl Hfont) as (r & Hr & Habove & Hstop).
  { intros s Hs. apply Hloads. lia. }
  assert (Hmax : _maximize_font_size font text max_size = Return r).
  { unfold _maximize_font_size, bind. now rewrite Hfont. }
  pose proof (maximize_bounds _ _ _ _ Hmax) as Hbounds.
  exists r. split; [assumption|]. split; [lia|].
  destruct Hstop as [Hfits|[Hone Hnofit]].
  - left. split; [assumption|]. intros s Hs. split.
    + intros Hs_fits. destruct (Z.le_gt_cases s r) as [|Hgt]; [assumption|].
      exfalso. apply (Habove s); [lia | assumption].
    + intros Hle. destruct Hfits as [w [Hw Hw_le]].
      destruct (Hloads s Hs) as [f Hf].
      exists (fst (getsize f text)). split; [now apply measured_loaded|].
      pose proof (Hmono s r _ w ltac:(lia) ltac:(lia)
                    (measured_loaded _ _ _ _ Hf) Hw).
      lia.
  - right. split; [lia|]. intros s Hs.
    destruct (Z.eq_dec s r) as [->|Hne]; [assumption|].
    apply Habove. lia.
Qed.

Lemma maximize_largest_fitting_size_witness :
  exists r,
    @_maximize_font_size Reference.fixed_pitch
      Reference.font_file (Py.lit "Hello") 100 = Return r /\
    1 <= r <= 100 /\
    ((@fits Reference.fixed_pitch Reference.font_file (Py.lit "Hello") 100 r /\
      forall s, 1 <= s <= 100 ->
        (@fits Reference.fixed_pitch Reference.font_file (Py.lit "Hello") 100 s
         <-> s <= r))
     \/
     (r = 1 /\ forall s, 1 <= s <= 100 ->
        ~ @fits Reference.fixed_pitch Reference.font_file (Py.lit "Hello") 100 s)).
Proof.
  apply (@maximize_largest_fitting_size Reference.fixed_pitch).
  - lia.
  - apply fixed_pitch_loads.
  - apply fixed_pitch_monotone.
Defined.

Example maximize_hello :
  @_maximize_font_size Reference.fixed_pitch
    Reference.font_file (Py.lit "Hello") 100 = Return 41.
Proof. vm_compute. reflexivity. Qed.

(** C4, as stated, does not hold: on a 400 by 400 picture the caption
    pipeline's [max_font_size] is 80 and [max_text_len] is 380; the letter A
    fits at size 380, and that is what [_maximize_font_size] returns. *)
Lemma maximize_above_max_font_size :
  @int Reference.fractions (truediv (Int 400) (Int 5)) = 80 /\
  @_maximize_font_size Reference.fixed_pitch
    Reference.font_file (Py.lit "A") (400 - 20) = Return 380 /\
  ~ (1 <= 380 <= 80).
Proof.
  split; [reflexivity|]. split; [vm_compute; reflexivity | lia].
Qed.

(** C4, amended. The size [_maximize_font_size] returns is at most the size
    it starts from, which is the pixel width it is given, and at least 1 when
    that width is at least 1; it is the size chosen by [_optimize_font_size]
    that is at most [max_font_size]. *)
Theorem maximize_within_pixel_width `{Pillow}
        (font text : str) (max_font_size min_font_size max_text_len : Z) :
  (forall phrase r,
      _maximize_font_size font phrase max_text_len = Return r ->
      r <= max_text_len /\ (1 <= max_text_len -> 1 <= r))
  /\
  (forall size text',
      0 <= max_font_size ->
      _optimize_font_size font text max_font_size min_font_size max_text_len
      = Return (size, text') ->
      size <= max_font_size).
Proof.
  split.
  - intros phrase r Hr. apply maximize_bounds in Hr. lia.
  - intros size text'. apply optimize_below_candidate.
Qed.

Lemma maximize_within_pixel_width_witness :
  (380 <= 380 /\ (1 <= 380 -> 1 <= 380)) /\ 80 <= 80.
Proof.
  pose proof (@maximize_within_pixel_width Reference.fixed_pitch
                Reference.font_file (Py.lit "A") 80 33 380) as [Hmax Hopt].
  split.
  - apply (Hmax (Py.lit "A") 380). vm_compute. reflexivity.
  - apply (Hopt 80 (Py.lit "A")); [lia | vm_compute; reflexivity].
Defined.

(** C2. [_optimize_font_size] is the layout of the specification: it splits
    the text exactly when the single line, measured at
    [min_font_size_single_line], is wider than [max_line_pixel_width], and
    keeps the one phrase otherwise; the size it returns is the minimum of
    [max_font_size // len(phrases)] and the maximised size of each phrase;
    the text it returns is the phrases joined by a line break, in order. *)
Theorem optimize_font_size_is_layout `{Pillow} (font text : str)
        (max_font_size min_font_size_single_line max_line_pixel_width : Z) :
  _optimize_font_size font text max_font_size min_font_size_single_line
                      max_line_pixel_width
  = layout_spec font text max_font_size min_font_size_single_line
                max_line_pixel_width.
Proof.
  unfold _optimize_font_size, layout_spec, measured.
  destruct (truetype font min_font_size_single_line) as [fontobj|e];
    cbn; [|reflexivity].
  rewrite Z.gtb_ltb, fit_phrases_min.
  destruct (maximize_all font max_line_pixel_width _) as [sizes|e]; reflexivity.
Qed.

Example optimize_two_lines :
  @_optimize_font_size Reference.fixed_pitch Reference.font_file
    (Py.lit "Hello, world!") 80 33 180
  = Return (40, Py.lit "Hello," ++ [newline] ++ Py.lit "world!").
Proof. vm_compute. reflexivity. Qed.

(** ** Outlined text *)

Section DrawFacts.
Context `{OS}.

Lemma appended_nil (w : World) : appended w [] = w.
Proof. destruct w. unfold appended. cbn. now rewrite app_nil_r. Qed.

Lemma appended_app (w : World) a b :
  appended (appended w a) b = appended w (a ++ b).
Proof. unfold appended. cbn. now rewrite app_assoc. Qed.

(** A loop whose body only draws, draws the calls of its rounds in order. *)
Lemma for_each_draws {A : Type} (body : A -> M unit) (calls : A -> list DrawCall) :
  (forall x w, body x w = (appended w (calls x), Return tt)) ->
  forall items w,
    for_each items body w = (appended w (flat_map calls items), Return tt).
Proof.
  intros Hbody. induction items as [|x rest IH]; intros w; cbn.
  - now rewrite appended_nil.
  - unfold bindM. rewrite Hbody, IH, appended_app. reflexivity.
Qed.

Lemma range_NoDup hi : forall n lo, Z.to_nat (hi - lo) = n -> NoDup (Py.range lo hi).
Proof.
  induction n as [|n IH]; intros lo Hn.
  - rewrite range_nil by lia. constructor.
  - rewrite range_cons by lia. constructor.
    + rewrite In_range. lia.
    + apply IH. lia.
Qed.

Lemma list_prod_NoDup {A B : Type} (l : list A) (l' : list B) :
  NoDup l -> NoDup l' -> NoDup (list_prod l l').
Proof.
  intros Hl Hl'. induction Hl as [|x l Hx Hl IH]; cbn; [constructor|].
  apply NoDup_app.
  - clear -Hl'. induction Hl' as [|y l' Hy Hl' IH]; cbn; constructor; auto.
    rewrite in_map_iff. intros [y' [[= ->] Hin]]. contradiction.
  - assumption.
  - intros [a b] Hin1 Hin2.
    apply in_map_iff in Hin1. destruct Hin1 as [y [[= <- <-] _]].
    apply in_prod_iff in Hin2. now destruct Hin2.
Qed.

Lemma outline_offsets_spec t dx dy :
  In (dx, dy) (outline_offsets t) <-> (- t <= dx <= t /\ - t <= dy <= t).
Proof.
  unfold outline_offsets. rewrite in_prod_iff, !In_range. lia.
Qed.

Lemma outline_offsets_length t :
  0 <= t -> len (outline_offsets t) = (2 * t + 1) ^ 2.
Proof.
  intros Ht. unfold outline_offsets, Py.len.
  rewrite length_prod, !length_range. nia.
Qed.

End DrawFacts.

(** C6. [_draw_outlined_text] uses the thickness [max(1, font_size // 25)];
    it draws the text in black once at every offset [(x + dx, y + dy)] with
    [dx] and [dy] between minus and plus the thickness, that is
    [(2t + 1) ** 2] black calls, 9 when the thickness is 1, and after them the
    text once in white at [(x, y)], whatever the caption. *)
Theorem outlined_text_draw_calls `{OS} (text_position : num * num) (text : str)
        (font : FreeTypeFont) (font_size : Z) (w : World) :
  let t := Z.max 1 (font_size / 25) in
  _draw_outlined_text text_position text font font_size w
  = (appended w (map (outline_call text_position text font) (outline_offsets t)
                 ++ [fill_call text_position text font]),
     Return tt)
  /\ NoDup (outline_offsets t)
  /\ (forall dx dy,
         In (dx, dy) (outline_offsets t) <-> (- t <= dx <= t /\ - t <= dy <= t))
  /\ len (outline_offsets t) = (2 * t + 1) ^ 2
  /\ (t = 1 -> len (outline_offsets t) = 9).
Proof.
  intros t. split; [|split; [|split; [|split]]].
  - unfold _draw_outlined_text. fold t. unfold bindM.
    rewrite (for_each_draws _
               (fun x => map (fun y => outline_call text_position text font (x, y))
                             (Py.range (- t) (t + 1)))).
    + unfold multiline_text. rewrite appended_app. do 2 f_equal. f_equal.
      unfold outline_offsets. rewrite list_prod_as_flat_map, flat_map_concat_map.
      rewrite flat_map_concat_map, concat_map, map_map.
      f_equal. apply map_ext. intros x. now rewrite map_map.
    + intros x w'.
      rewrite (for_each_draws _
                 (fun y => [outline_call text_position text font (x, y)])).
      * f_equal.
      * intros y w''. reflexivity.
  - apply list_prod_NoDup; apply (range_NoDup _ _ _ eq_refl).
  - intros dx dy. apply outline_offsets_spec.
  - apply outline_offsets_length. lia.
  - intros Ht. rewrite outline_offsets_length by lia. rewrite Ht. reflexivity.
Qed.

(** ** Digest and path *)

Section HashFacts.
Local Open Scope outcome_scope.

Lemma encode_app a b :
  Codec.encode (a ++ b)
  = (x <- Codec.encode a ;; y <- Codec.encode b ;; Return (x ++ y)).
Proof.
  induction a as [|c a IH]; cbn.
  - destruct (Codec.encode b); reflexivity.
  - destruct (Codec.encode_char c) as [bs|e]; cbn; [|reflexivity].
    rewrite IH.
    destruct (Codec.encode a) as [x|e]; cbn; [|reflexivity].
    destruct (Codec.encode b) as [y|e]; cbn; [|reflexivity].
    now rewrite app_assoc.
Qed.

(** Feeding the values one by one hashes the encoding of their string forms,
    concatenated. *)
Lemma feed_concat values : forall sha,
  feed sha values
  = (data <- Codec.encode (hashed_text values) ;; Return (sha ++ data)).
Proof.
  unfold hashed_text.
  induction values as [|v rest IH]; intros sha; cbn.
  - now rewrite app_nil_r.
  - rewrite encode_app.
    destruct (Codec.encode (str_or_empty v)) as [data|e]; cbn; [|reflexivity].
    rewrite IH. unfold Hashlib.update.
    destruct (Codec.encode (List.concat (map str_or_empty rest))) as [more|e];
      cbn; [|reflexivity].
    now rewrite app_assoc.
Qed.

Lemma hash_concat values :
  hash values
  = (data <- Codec.encode (hashed_text values) ;;
     Return (Hashlib.hex (Hashlib.md5 data))).
Proof.
  unfold hash. rewrite feed_concat.
  destruct (Codec.encode (hashed_text values)); reflexivity.
Qed.

(** The shapes of the UTF-8 encoding of one code point. *)
Lemma encode_char_cases c bs :
  Codec.encode_char c = Return bs ->
  let z := Z.of_N c in
  (0 <= z < 0x80 /\ bs = [z])
  \/ (0x80 <= z < 0x800 /\ bs = [0xc0 + z / 64; 0x80 + z mod 64])
  \/ (0x800 <= z < 0x10000 /\
      bs = [0xe0 + z / 4096; 0x80 + (z / 64) mod 64; 0x80 + z mod 64])
  \/ (0x10000 <= z < 0x110000 /\
      bs = [0xf0 + z / 262144; 0x80 + (z / 4096) mod 64;
            0x80 + (z / 64) mod 64; 0x80 + z mod 64]).
Proof.
  intros Henc. unfold Codec.encode_char in Henc. cbv zeta in *.
  set (z := Z.of_N c) in *.
  assert (0 <= z) by (subst z; lia).
  destruct (Z.ltb_spec z 0x80); [left; split; [lia | congruence]|].
  destruct (Z.ltb_spec z 0x800); [right; left; split; [lia | congruence]|].
  destruct (Z.ltb_spec z 0x10000).
  { destruct ((0xd800 <=? z) && (z <=? 0xdfff)); [discriminate|].
    right; right; left; split; [lia | congruence]. }
  destruct (Z.ltb_spec z 0x110000); [|discriminate].
  right; right; right; split; [lia | congruence].
Qed.

Lemma cons_eq_inv {A : Type} (a b : A) (l l' : list A) :
  a :: l = b :: l' -> a = b /\ l = l'.
Proof. intros [= -> ->]. now split. Qed.

(** No encoding of a code point is a prefix of the encoding of another. *)
Lemma encode_char_prefix c c' bs bs' r r' :
  Codec.encode_char c = Return bs ->
  Codec.encode_char c' = Return bs' ->
  bs ++ r = bs' ++ r' ->
  c = c' /\ r = r'.
Proof.
  intros Hc Hc' Heq.
  apply encode_char_cases in Hc, Hc'. cbv zeta in Hc, Hc'.
  assert (Hz : Z.of_N c = Z.of_N c' /\ r = r').
  { generalize dependent (Z.of_N c'). generalize dependent (Z.of_N c).
    intros z Hc z' Hc'.
    destruct Hc as [[Hz ->]|[[Hz ->]|[[Hz ->]|[Hz ->]]]];
      destruct Hc' as [[Hz' ->]|[[Hz' ->]|[[Hz' ->]|[Hz' ->]]]];
      cbn [app] in Heq;
      repeat match goal with
             | E : _ :: _ = _ :: _ |- _ => apply cons_eq_inv in E; destruct E
             end;
      first [ exfalso; Z.to_euclidean_division_equations; lia
            | split; [Z.to_euclidean_division_equations; lia | congruence] ]. }
  destruct Hz as [Hz Hr]. split; [now apply N2Z.inj | assumption].
Qed.

Lemma encode_char_nonempty c bs : Codec.encode_char c = Return bs -> bs <> [].
Proof.
  intros Hc. apply encode_char_cases in Hc. cbv zeta in Hc.
  destruct Hc as [[_ ->]|[[_ ->]|[[_ ->]|[_ ->]]]]; discriminate.
Qed.

(** UTF-8 is injective on the strings it encodes. *)
Lemma encode_injective s : forall s' bs,
  Codec.encode s = Return bs -> Codec.encode s' = Return bs -> s = s'.
Proof.
  induction s as [|c s IH]; intros s' bs; cbn.
  - intros [= <-]. destruct s' as [|c' s']; cbn; [reflexivity|].
    destruct (Codec.encode_char c') as [b'|e] eqn:Hc'; cbn; [|discriminate].
    destruct (Codec.encode s'); cbn; [|discriminate].
    intros [= Hnil]. apply app_eq_nil in Hnil.
    destruct Hnil as [Hnil _]. now apply encode_char_nonempty in Hc'.
  - destruct (Codec.encode_char c) as [b|e] eqn:Hc; cbn; [|discriminate].
    destruct (Codec.encode s) as [more|e] eqn:Hs; cbn; [|discriminate].
    intros [= <-]. destruct s' as [|c' s']; cbn.
    + intros [= Hnil]. symmetry in Hnil. apply app_eq_nil in Hnil.
      destruct Hnil as [Hnil _]. now apply encode_char_nonempty in Hc.
    + destruct (Codec.encode_char c') as [b'|e] eqn:Hc'; cbn; [|discriminate].
      destruct (Codec.encode s') as [more'|e] eqn:Hs'; cbn; [|discriminate].
      intros [= Heq]. symmetry in Heq.
      destruct (encode_char_prefix _ _ _ _ _ _ Hc Hc' Heq) as [-> ->].
      f_equal. now apply (IH s' more').
Qed.

(** Replacing one value changes the hashed text exactly when it changes the
    string form of that value. *)
Lemma hashed_text_replace pre post x x' :
  hashed_text (pre ++ x :: post) = hashed_text (pre ++ x' :: post)
  <-> str_or_empty x = str_or_empty x'.
Proof.
  unfold hashed_text. rewrite !map_app, !concat_app. cbn [map List.concat].
  split.
  - intros Heq. apply app_inv_head in Heq. now apply app_inv_tail in Heq.
  - now intros ->.
Qed.

End HashFacts.

Example path_with_digest :
  path (Reference.request None (Some Reference.impact) (Some Reference.wide))
  = Return (Some (Py.lit
      "/data/buzz/hello/world#45c559239a80394bf5950784f8f3a159.img")).
Proof. vm_compute. reflexivity. Qed.

Example path_without_digest :
  path (Reference.request None None None)
  = Return (Some (Py.lit "/data/buzz/hello/world.img")).
Proof. vm_compute. reflexivity. Qed.

(** C7, as stated, does not hold where a field is there but false: with a
    width of 0 and nothing else, the width deviates from its default [None]
    and yet the path has no digest; and with the style "x" and a width of 0
    the digest is the MD5 of "x", not of "x0", the string forms of the two
    fields. *)
Lemma path_of_zero_width :
  (deviates (Reference.request None None (Some zero_width)) = true /\
   path (Reference.request None None (Some zero_width))
   = Return (Some (Py.lit "/data/buzz/hello/world.img")))
  /\
  (path (Reference.request (Some (Py.lit "x")) None (Some zero_width))
   = Return (Some (Py.lit
       "/data/buzz/hello/world#9dd4e461268c8034f5c8564e155c67a6.img")) /\
   digest_of_string_forms
     (overrides (Reference.request (Some (Py.lit "x")) None (Some zero_width)))
   = Return (Py.lit "e50eb7598b580311bab8f39bb8f4815b")).
Proof.
  split; split; vm_compute; reflexivity.
Qed.

(** C7, amended. The path is a function of the root, the template's key, the
    text's path and the four override fields, so equal requests have equal
    paths; the digest segment is there exactly when one of style, font, width
    and height is true in Python's sense (neither [None], nor empty, nor 0,
    nor a false font object); the digest is the hexadecimal MD5 of the string
    forms [str(value or "")] of the four fields, concatenated in that order,
    so that a field that is [None], or false otherwise, stands for the empty
    string.  Without a root there is no path. *)
Theorem path_deterministic_digest_of_overrides (self other : Image) :
  (root self = None \/ root self = Some [] -> path self = Return None)
  /\
  (root self = root other ->
   key (template self) = key (template other) ->
   text_path (text self) = text_path (text other) ->
   style self = style other -> font self = font other ->
   width self = width other -> height self = height other ->
   path self = path other)
  /\
  (forall r, root self = Some r -> r <> [] ->
     path self =
     let base := Posixpath.join r [key (template self); text_path (text self)] in
     if overridden self
     then bind (hash (overrides self))
            (fun slug => Return (Some (base ++ Py.lit "#" ++ slug ++ Py.lit ".img")))
     else Return (Some (base ++ Py.lit ".img")))
  /\
  hash (overrides self)
  = bind (Codec.encode (str_or_empty (of_str (style self))
                        ++ str_or_empty (of_font (font self))
                        ++ str_or_empty (of_int_opt (width self))
                        ++ str_or_empty (of_int_opt (height self))))
      (fun data => Return (Hashlib.hex (Hashlib.md5 data)))
  /\
  str_or_empty VNone = [].
Proof.
  split; [|split; [|split; [|split]]].
  - unfold path. intros [-> | ->]; reflexivity.
  - intros Hroot Hkey Htext Hstyle Hfont Hwidth Hheight.
    unfold path, overrides.
    now rewrite Hroot, Hkey, Htext, Hstyle, Hfont, Hwidth, Hheight.
  - intros r Hroot Hr. unfold path, overridden, overrides.
    rewrite Hroot. cbn [of_str truthy existsb].
    destruct r as [|c r]; [contradiction|]. cbn [negb].
    rewrite !orb_false_r, !orb_assoc. reflexivity.
  - rewrite hash_concat. unfold hashed_text, overrides. cbn [map List.concat].
    now rewrite app_nil_r.
  - reflexivity.
Qed.

Lemma path_deterministic_digest_of_overrides_witness :
  path (Reference.request None (Some Reference.impact) (Some Reference.wide))
  = Return (Some (Py.lit
      "/data/buzz/hello/world#45c559239a80394bf5950784f8f3a159.img")).
Proof.
  destruct (path_deterministic_digest_of_overrides
              (Reference.request None (Some Reference.impact) (Some Reference.wide))
              (Reference.request None (Some Reference.impact) (Some Reference.wide)))
    as (_ & _ & Hpath & _).
  rewrite (Hpath (Py.lit "/data") eq_refl ltac:(discriminate)).
  vm_compute. reflexivity.
Defined.

(** C8, as stated, does not hold.  A width of 0 has the string form of a
    missing width, so the digest is the same with it as without it; and two
    styles that differ in one letter can have the same MD5. *)
Lemma digest_unchanged_by_changed_override :
  (VInt 0 <> VNone /\
   hash [VStr (Py.lit "custom"); VNone; VInt 0; VNone]
   = hash [VStr (Py.lit "custom"); VNone; VNone; VNone])
  /\
  (VStr Reference.style_a <> VStr Reference.style_e /\
   hash [VStr Reference.style_a; VNone; VNone; VNone]
   = hash [VStr Reference.style_e; VNone; VNone; VNone]).
Proof.
  split; (split; [discriminate | vm_compute; reflexivity]).
Qed.

(** C8, amended. Two tuples of overrides that agree on three fields and
    differ in the fourth are hashed from different byte strings exactly when
    the string forms [str(value or "")] of that field differ: with equal
    string forms the digests are equal, with different ones the digests are
    the MD5 of different messages. *)
Theorem digest_follows_string_form (before after : list value) (x x' : value)
        (message message' : list Z) :
  feed [] (before ++ x :: after) = Return message ->
  feed [] (before ++ x' :: after) = Return message' ->
  hash (before ++ x :: after) = Return (Hashlib.hexdigest message)
  /\ hash (before ++ x' :: after) = Return (Hashlib.hexdigest message')
  /\ (str_or_empty x = str_or_empty x' <-> message = message').
Proof.
  intros Hm Hm'. unfold hash. rewrite Hm, Hm'. cbn.
  split; [reflexivity|]. split; [reflexivity|].
  rewrite feed_concat in Hm, Hm'.
  destruct (Codec.encode (hashed_text (before ++ x :: after)))
    as [data|e] eqn:Hdata; [|discriminate].
  destruct (Codec.encode (hashed_text (before ++ x' :: after)))
    as [data'|e] eqn:Hdata'; [|discriminate].
  cbn in Hm, Hm'. injection Hm as <-. injection Hm' as <-.
  rewrite <- hashed_text_replace with (pre := before) (post := after).
  split.
  - intros Heq. rewrite Heq in Hdata. congruence.
  - intros <-. now apply (encode_injective _ _ data).
Qed.

Lemma digest_follows_string_form_witness :
  hash ([VStr (Py.lit "custom"); VNone] ++ VInt 300 :: [VNone])
  = Return (Hashlib.hexdigest (map Z.of_N (Py.lit "custom300")))
  /\ hash ([VStr (Py.lit "custom"); VNone] ++ VInt 400 :: [VNone])
     = Return (Hashlib.hexdigest (map Z.of_N (Py.lit "custom400")))
  /\ (str_or_empty (VInt 300) = str_or_empty (VInt 400)
      <-> map Z.of_N (Py.lit "custom300") = map Z.of_N (Py.lit "custom400")).
Proof.
  apply (digest_follows_string_form
           [VStr (Py.lit "custom"); VNone] [VNone] (VInt 300) (VInt 400));
    vm_compute; reflexivity.
Defined.

(** * Further properties *)

(** ** Splitting and layout *)

(** X1. Joining the lines [_split] returns with a single space gives the
    text back, whether it was split or not. *)
Theorem split_then_join_with_space (text : str) :
  Py.join [space] (TextSplitter._split text) = text.
Proof.
  destruct (Z.lt_ge_cases (len text) 3) as [Hshort|Hn].
  { rewrite split_unchanged by (now left). reflexivity. }
  destruct (interior_space_dec text Hn) as [Hint|Hno].
  - destruct (split_lines text Hn Hint) as (j & l1 & l2 & _ & Heq & _ & Htext).
    rewrite Heq, Htext at 1. reflexivity.
  - rewrite split_unchanged by (now right). reflexivity.
Qed.

Section LayoutFacts.
Context `{Pillow}.

(** The phrases the layout works on are the text itself or its two lines. *)
Lemma optimize_phrases font text max_font_size min_font_size max_text_len
      size text' :
  _optimize_font_size font text max_font_size min_font_size max_text_len
  = Return (size, text') ->
  exists phrases sizes,
    (phrases = [text] \/ phrases = TextSplitter._split text) /\
    maximize_all font max_text_len phrases = Return sizes /\
    size = fold_right Z.min (max_font_size / len phrases) sizes /\
    text' = Py.join [newline] phrases.
Proof.
  unfold _optimize_font_size.
  destruct (truetype font min_font_size) as [fontobj|e]; cbn; [|discriminate].
  rewrite fit_phrases_min.
  set (phrases := if fst (getsize fontobj text) >? max_text_len
                  then TextSplitter._split text else [text]).
  destruct (maximize_all font max_text_len phrases) as [sizes|e] eqn:Hsizes;
    cbn; [|discriminate].
  intros [= <- <-]. exists phrases, sizes.
  repeat split; try assumption.
  subst phrases. destruct (_ >? _); [now right | now left].
Qed.

Lemma split_shape (text : str) :
  TextSplitter._split text = [text]
  \/ exists l1 l2, TextSplitter._split text = [l1; l2] /\
                   text = l1 ++ space :: l2 /\ l1 <> [] /\ l2 <> [].
Proof.
  destruct (Z.lt_ge_cases (len text) 3) as [Hshort|Hn].
  { left. apply split_unchanged. now left. }
  destruct (interior_space_dec text Hn) as [Hint|Hno].
  2:{ left. apply split_unchanged. now right. }
  destruct (split_lines text Hn Hint) as (j & l1 & l2 & Hj & Heq & Hlen & Htext).
  pose proof (closest_space_interior text j Hint Hj) as Hinner.
  assert (Hlen2 : len text = len l1 + 1 + len l2).
  { rewrite Htext at 1. unfold Py.len. rewrite length_app. cbn [List.length]. lia. }
  right. exists l1, l2. repeat split; try assumption.
  - intros ->. cbn in Hlen. lia.
  - intros ->. cbn in Hlen2. lia.
Qed.

End LayoutFacts.

(** X2. The text [_optimize_font_size] returns is the caption itself, or the
    caption with one of its spaces, neither the first nor the last character,
    replaced by a line break: no character is added, dropped or moved. *)
Theorem optimize_keeps_the_caption `{Pillow} (font text : str)
        (max_font_size min_font_size max_text_len size : Z) (text' : str) :
  _optimize_font_size font text max_font_size min_font_size max_text_len
  = Return (size, text') ->
  len text' = len text /\
  (text' = text
   \/ exists l1 l2, text = l1 ++ space :: l2 /\ text' = l1 ++ newline :: l2 /\
                    l1 <> [] /\ l2 <> []).
Proof.
  intros Hopt.
  destruct (optimize_phrases _ _ _ _ _ _ _ Hopt)
    as (phrases & sizes & Hphrases & _ & _ & ->).
  assert (Hshape : phrases = [text]
                   \/ exists l1 l2, phrases = [l1; l2] /\
                        text = l1 ++ space :: l2 /\ l1 <> [] /\ l2 <> []).
  { destruct Hphrases as [-> | ->]; [now left | apply split_shape]. }
  destruct Hshape as [-> | (l1 & l2 & -> & Htext & Hl1 & Hl2)].
  - split; [reflexivity | now left].
  - cbn [Py.join]. split.
    + rewrite Htext. unfold Py.len. rewrite !length_app. reflexivity.
    + right. now exists l1, l2.
Qed.

Lemma optimize_keeps_the_caption_witness :
  len (Py.lit "Hello," ++ [newline] ++ Py.lit "world!")
  = len (Py.lit "Hello, world!") /\
  (Py.lit "Hello," ++ [newline] ++ Py.lit "world!" = Py.lit "Hello, world!"
   \/ exists l1 l2,
        Py.lit "Hello, world!" = l1 ++ space :: l2 /\
        Py.lit "Hello," ++ [newline] ++ Py.lit "world!" = l1 ++ newline :: l2 /\
        l1 <> [] /\ l2 <> []).
Proof.
  apply (@optimize_keeps_the_caption Reference.fixed_pitch Reference.font_file
           (Py.lit "Hello, world!") 80 33 180 40).
  vm_compute. reflexivity.
Defined.

Section FitFacts.
Context `{Pillow}.

(** What [_maximize_font_size] returns for a font that loads. *)
Lemma maximize_returns font text max_size :
  1 <= max_size -> loads font max_size ->
  exists r,
    _maximize_font_size font text max_size = Return r /\
    1 <= r <= max_size /\
    (forall s, r < s <= max_size -> ~ fits font text max_size s) /\
    (fits font text max_size r \/ (r = 1 /\ ~ fits font text max_size r)).
Proof.
  intros Hpos Hloads.
  destruct (Hloads max_size ltac:(lia)) as [fontobj Hfont].
  destruct (shrink_scan font text max_size (Z.to_nat max_size) max_size fontobj
              eq_refl Hfont) as (r & Hr & Habove & Hstop).
  { intros s Hs. apply Hloads. lia. }
  assert (Hmax : _maximize_font_size font text max_size = Return r).
  { unfold _maximize_font_size, bind. now rewrite Hfont. }
  pose proof (maximize_bounds _ _ _ _ Hmax) as Hbounds.
  exists r. split; [assumption|]. split; [lia|]. split; [assumption|].
  destruct Hstop as [Hfits|[Hone Hnofit]]; [now left|].
  right. split; [lia | assumption].
Qed.

Lemma maximize_all_each font max_text_len phrases : forall sizes,
  maximize_all font max_text_len phrases = Return sizes ->
  Forall2 (fun phrase r => _maximize_font_size font phrase max_text_len = Return r)
          phrases sizes.
Proof.
  induction phrases as [|phrase rest IH]; intros sizes; cbn.
  - intros [= <-]. constructor.
  - destruct (_maximize_font_size font phrase max_text_len) as [r|e] eqn:Hr;
      cbn; [|discriminate].
    destruct (maximize_all font max_text_len rest) as [others|e];
      cbn; [|discriminate].
    intros [= <-]. constructor; [assumption | now apply IH].
Qed.

Lemma maximize_all_returns font max_text_len phrases :
  1 <= max_text_len -> loads font max_text_len ->
  exists sizes, maximize_all font max_text_len phrases = Return sizes.
Proof.
  intros Hpos Hloads. induction phrases as [|phrase rest [others IH]]; cbn.
  - now exists [].
  - destruct (maximize_returns font phrase max_text_len Hpos Hloads)
      as (r & Hr & _).
    rewrite Hr, IH. cbn. now exists (r :: others).
Qed.

Lemma fold_min_elem sizes : forall c r,
  In r sizes -> fold_right Z.min c sizes <= r.
Proof.
  induction sizes as [|x xs IH]; intros c r Hin; [destruct Hin|].
  cbn. destruct Hin as [->|Hin]; [lia|].
  specialize (IH c r Hin). lia.
Qed.

Lemma fold_min_floor sizes : forall c lo,
  lo <= c -> Forall (fun r => lo <= r) sizes -> lo <= fold_right Z.min c sizes.
Proof.
  induction sizes as [|x xs IH]; intros c lo Hc Hall; cbn; [assumption|].
  inversion Hall; subst. specialize (IH c lo Hc ltac:(assumption)). lia.
Qed.

Lemma Forall2_in_left {A B : Type} (R : A -> B -> Prop) l l' a :
  Forall2 R l l' -> In a l -> exists b, In b l' /\ R a b.
Proof.
  induction 1 as [|x y l l' Hxy Hrest IH]; intros Hin; [destruct Hin|].
  destruct Hin as [->|Hin].
  - exists y. split; [now left | assumption].
  - destruct (IH Hin) as [b [Hb HR]]. exists b. split; [now right | assumption].
Qed.

Lemma Forall2_in_right {A B : Type} (R : A -> B -> Prop) l l' b :
  Forall2 R l l' -> In b l' -> exists a, In a l /\ R a b.
Proof.
  induction 1 as [|x y l l' Hxy Hrest IH]; intros Hin; [destruct Hin|].
  destruct Hin as [->|Hin].
  - exists x. split; [now left | assumption].
  - destruct (IH Hin) as [a [Ha HR]]. exists a. split; [now right | assumption].
Qed.

End FitFacts.

(** X3. When the font loads at [min_font_size] and at every size from 1 to
    [max_text_len], [max_text_len] is at least 1 and [max_font_size] at least
    2, [_optimize_font_size] returns, and the size it returns is at least 1
    and at most both [max_font_size] and [max_text_len]. *)
Theorem optimize_returns_positive_size `{Pillow} (font text : str)
        (max_font_size min_font_size max_text_len : Z) :
  (exists fontobj, truetype font min_font_size = Return fontobj) ->
  loads font max_text_len ->
  1 <= max_text_len ->
  2 <= max_font_size ->
  exists size text',
    _optimize_font_size font text max_font_size min_font_size max_text_len
    = Return (size, text') /\
    1 <= size <= Z.min max_font_size max_text_len.
Proof.
  intros [fontobj Hmin] Hloads Hlen Hfont.
  unfold _optimize_font_size. rewrite Hmin. cbn. rewrite fit_phrases_min.
  set (phrases := if fst (getsize fontobj text) >? max_text_len
                  then TextSplitter._split text else [text]).
  assert (Hcount : len phrases = 1 \/ len phrases = 2).
  { subst phrases. destruct (_ >? _); [apply split_one_or_two | now left]. }
  destruct (maximize_all_returns font max_text_len phrases Hlen Hloads)
    as [sizes Hsizes].
  rewrite Hsizes. cbn.
  exists (fold_right Z.min (max_font_size / len phrases) sizes),
         (Py.join [newline] phrases).
  split; [reflexivity|].
  pose proof (maximize_all_each _ _ _ _ Hsizes) as Heach.
  assert (Hcand : 1 <= max_font_size / len phrases <= max_font_size).
  { destruct Hcount as [-> | ->]; [rewrite Z.div_1_r; lia|].
    split; [apply Z.div_le_lower_bound; lia | apply Z.div_le_upper_bound; lia]. }
  assert (Hall : Forall (fun r => 1 <= r) sizes).
  { apply Forall_forall. intros r Hr.
    destruct (Forall2_in_right _ _ _ _ Heach Hr) as [phrase [_ Hmax]].
    apply maximize_bounds in Hmax. lia. }
  pose proof (fold_min_floor sizes _ 1 (proj1 Hcand) Hall).
  pose proof (fold_min_below sizes (max_font_size / len phrases)).
  assert (Hfirst : exists r, In r sizes /\ r <= max_text_len).
  { destruct phrases as [|phrase rest]; [cbn in Hcount; lia|].
    inversion Heach as [|? r ? ? Hmax ?]; subst.
    exists r. split; [now left|]. apply maximize_bounds in Hmax. lia. }
  destruct Hfirst as [r [Hr Hr_le]].
  pose proof (fold_min_elem sizes (max_font_size / len phrases) r Hr).
  lia.
Qed.

Lemma optimize_returns_positive_size_witness :
  exists size text',
    @_optimize_font_size Reference.fixed_pitch Reference.font_file
      (Py.lit "Hello, world!") 80 33 180 = Return (size, text') /\
    1 <= size <= Z.min 80 180.
Proof.
  apply (@optimize_returns_positive_size Reference.fixed_pitch).
  - exists 33. reflexivity.
  - apply fixed_pitch_loads.
  - lia.
  - lia.
Defined.

(** X4. With widths that do not decrease when the size grows and a font
    that loads, every line of the layout fits within [max_text_len] at the
    size [_optimize_font_size] returns, unless that line fits at no size up to
    [max_text_len]. *)
Theorem optimize_size_fits_every_line `{Pillow} (font text : str)
        (max_font_size min_font_size max_text_len size : Z) (text' : str) :
  _optimize_font_size font text max_font_size min_font_size max_text_len
  = Return (size, text') ->
  1 <= size ->
  loads font max_text_len ->
  (forall phrase, width_monotone font phrase max_text_len) ->
  exists phrases,
    text' = Py.join [newline] phrases /\
    (phrases = [text] \/ phrases = TextSplitter._split text) /\
    Forall (fun phrase =>
              fits font phrase max_text_len size
              \/ forall s, 1 <= s <= max_text_len ->
                           ~ fits font phrase max_text_len s)
           phrases.
Proof.
  intros Hopt Hsize Hloads Hmono.
  destruct (optimize_phrases _ _ _ _ _ _ _ Hopt)
    as (phrases & sizes & Hphrases & Hsizes & -> & ->).
  exists phrases. split; [reflexivity|]. split; [assumption|].
  pose proof (maximize_all_each _ _ _ _ Hsizes) as Heach.
  apply Forall_forall. intros phrase Hin.
  destruct (Forall2_in_left _ _ _ _ Heach Hin) as [r [Hr Hmax]].
  pose proof (fold_min_elem sizes (max_font_size / len phrases) r Hr) as Hle.
  pose proof (maximize_bounds _ _ _ _ Hmax) as Hbounds.
  destruct (maximize_returns font phrase max_text_len ltac:(lia) Hloads)
    as (r' & Hmax' & _ & Habove & Hstop).
  rewrite Hmax in Hmax'. injection Hmax' as <-.
  destruct Hstop as [[w [Hw Hw_le]] | [-> Hnofit]].
  - left.
    set (size := fold_right Z.min (max_font_size / len phrases) sizes) in *.
    destruct (Hloads size ltac:(lia)) as [f Hf].
    exists (fst (getsize f phrase)). split; [now apply measured_loaded|].
    pose proof (Hmono phrase size r (fst (getsize f phrase)) w
                  ltac:(lia) ltac:(lia) (measured_loaded _ _ _ _ Hf) Hw).
    lia.
  - right. intros s Hs. destruct (Z.eq_dec s 1) as [->|Hne]; [assumption|].
    apply Habove. lia.
Qed.

Lemma optimize_size_fits_every_line_witness :
  exists phrases,
    Py.lit "Hello," ++ [newline] ++ Py.lit "world!"
    = Py.join [newline] phrases /\
    (phrases = [Py.lit "Hello, world!"]
     \/ phrases = TextSplitter._split (Py.lit "Hello, world!")) /\
    Forall (fun phrase =>
              @fits Reference.fixed_pitch Reference.font_file phrase 180 40
              \/ forall s, 1 <= s <= 180 ->
                   ~ @fits Reference.fixed_pitch Reference.font_file phrase 180 s)
           phrases.
Proof.
  apply (@optimize_size_fits_every_line Reference.fixed_pitch
           Reference.font_file (Py.lit "Hello, world!") 80 33 180 40).
  - vm_compute. reflexivity.
  - lia.
  - apply fixed_pitch_loads.
  - intros phrase. apply fixed_pitch_monotone.
Defined.

(** ** Rendering *)

Section GenerateFacts.
Context `{OS}.

Lemma draw_outlined_text_appends text_position text font font_size w :
  _draw_outlined_text text_position text font font_size w
  = (appended w (caption_calls text_position text font font_size), Return tt).
Proof.
  unfold _draw_outlined_text, caption_calls.
  set (t := Z.max 1 (font_size / 25)). unfold bindM.
  rewrite (for_each_draws _
             (fun x => map (fun y => outline_call text_position text font (x, y))
                           (Py.range (- t) (t + 1)))).
  - unfold multiline_text. rewrite appended_app. do 2 f_equal. f_equal.
    unfold outline_offsets. rewrite list_prod_as_flat_map, flat_map_concat_map.
    rewrite flat_map_concat_map, concat_map, map_map.
    f_equal. apply map_ext. intros x. now rewrite map_map.
  - intros x w'.
    rewrite (for_each_draws _
               (fun y => [outline_call text_position text font (x, y)])).
    + f_equal.
    + intros y w''. reflexivity.
Qed.

Lemma eqb_eq (a b : str) : Py.eqb a b = true <-> a = b.
Proof.
  unfold Py.eqb. destruct (list_eq_dec N.eq_dec a b); split;
    congruence || discriminate.
Qed.

(** [_generate] either raises before it drew anything, or draws the two
    captions, the top one first, on the prepared picture. *)
Lemma generate_outcome top bottom font background width height w :
  (exists e,
      _generate top bottom font background width height w = (w, Raise e))
  \/
  (exists source image limit floor top_size top_text bottom_size bottom_text
          top_font bottom_font top_position bottom_position,
      open background = Return source /\
      (mode image = RGB \/ mode image = RGBA) /\
      (format image = Some JPEG <-> format source = Some JPEG) /\
      size image
      = thumbnail_size (size source)
          (if truthy_int width || truthy_int height
           then (int_or width 2000, int_or height 2000) else (400, 400)) /\
      _optimize_font_size font top limit floor (fst (size image) - 20)
      = Return (top_size, top_text) /\
      _optimize_font_size font bottom limit floor (fst (size image) - 20)
      = Return (bottom_size, bottom_text) /\
      truetype font top_size = Return top_font /\
      truetype font bottom_size = Return bottom_font /\
      _generate top bottom font background width height w
      = (appended w
           (caption_calls top_position top_text top_font top_size
            ++ caption_calls bottom_position bottom_text bottom_font bottom_size),
         Return image)).
Proof.
  unfold _generate, bindM, lift.
  destruct (open background) as [source|e] eqn:Hopen; [|left; now exists e].
  set (box := if truthy_int width || truthy_int height
              then (int_or width 2000, int_or height 2000) else (400, 400)).
  match goal with
  | |- context [match ?c with Return _ => _ | Raise _ => _ end] =>
      destruct c as [converted|e] eqn:Hconverted; [|left; now exists e]
  end.
  assert (Hprepared : (mode converted = RGB \/ mode converted = RGBA) /\
                      (format converted = Some JPEG <-> format source = Some JPEG) /\
                      size converted = size source).
  { destruct (Py.eqb (mode source) RGB) eqn:E1; cbn [orb negb] in Hconverted.
    { injection Hconverted as <-. apply eqb_eq in E1. tauto. }
    destruct (Py.eqb (mode source) RGBA) eqn:E2; cbn [negb] in Hconverted.
    { injection Hconverted as <-. apply eqb_eq in E2. tauto. }
    unfold convert, bind in Hconverted.
    unfold format_is in Hconverted.
    destruct (format source) as [f|] eqn:Hf.
    - destruct (Py.eqb f JPEG) eqn:E.
      + apply eqb_eq in E. subst f.
        destruct (convert_check source RGB); [|discriminate].
        injection Hconverted as <-. cbn. tauto.
      + destruct (convert_check source RGBA); [|discriminate].
        injection Hconverted as <-. cbn.
        split; [now right|]. split; [|reflexivity].
        split; [discriminate|]. intros [= ->].
        exfalso. vm_compute in E. discriminate.
    - destruct (convert_check source RGBA); [|discriminate].
      injection Hconverted as <-. cbn.
      split; [now right|]. split; [|reflexivity]. split; discriminate. }
  destruct Hprepared as (Hmode & Hformat & Hsize).
  destruct (thumbnail converted box) as [image|e] eqn:Hthumbnail;
    [|left; now exists e].
  assert (Himage : mode image = mode converted /\ format image = format converted
                   /\ size image = thumbnail_size (size converted) box).
  { unfold thumbnail, bind in Hthumbnail.
    destruct (thumbnail_check converted box); [|discriminate].
    injection Hthumbnail as <-. cbn. tauto. }
  destruct Himage as (Himode & Hiformat & Hisize).
  destruct (Draw image) as [[]|e]; [|left; now exists e].
  set (limit := int (truediv (Int (snd (size image))) (Int 5))).
  set (floor := int (truediv (Int (snd (size image))) (Int 12))).
  destruct (_optimize_font_size font top limit floor (fst (size image) - 20))
    as [[top_size top_text]|e] eqn:Htop; [|left; now exists e].
  destruct (_optimize_font_size font bottom limit floor (fst (size image) - 20))
    as [[bottom_size bottom_text]|e] eqn:Hbottom; [|left; now exists e].
  destruct (truetype font top_size) as [top_font|e] eqn:Htf; [|left; now exists e].
  destruct (truetype font bottom_size) as [bottom_font|e] eqn:Hbf;
    [|left; now exists e].
  right. rewrite !draw_outlined_text_appends, appended_app.
  exists source, image, limit, floor, top_size, top_text, bottom_size, bottom_text,
         top_font, bottom_font.
  do 2 eexists.
  split; [reflexivity|].
  split; [rewrite Himode; assumption|].
  split; [rewrite Hiformat; assumption|].
  split; [rewrite Hisize, Hsize; reflexivity|].
  repeat split; try eassumption; reflexivity.
Qed.

End GenerateFacts.

(** ** Persistence *)

Section SaveFacts.
Context `{OS}.

Lemma generate_raise_unchanged top bottom font background width height w w' e :
  _generate top bottom font background width height w = (w', Raise e) ->
  w' = w.
Proof.
  intros Hgen.
  destruct (generate_outcome top bottom font background width height w)
    as [[e' Hraise] | Hreturn].
  - rewrite Hraise in Hgen. now injection Hgen as <- _.
  - destruct Hreturn as (? & ? & ? & ? & ? & ? & ? & ? & ? & ? & ? & ? & Hreturn).
    destruct Hreturn as (_ & _ & _ & _ & _ & _ & _ & _ & Hreturn).
    rewrite Hreturn in Hgen. discriminate.
Qed.

(** A background that cannot be opened stops [_generate] at once. *)
Lemma generate_unreadable_background top bottom font background width height e w :
  open background = Raise e ->
  _generate top bottom font background width height w = (w, Raise e).
Proof.
  intros Hopen. unfold _generate, bindM, lift. now rewrite Hopen.
Qed.

(** A picture whose data cannot be loaded stops [_generate] at the latest
    when the picture is resized. *)
Lemma generate_unreadable_data top bottom font background width height w :
  data_unreadable ->
  exists e, _generate top bottom font background width height w = (w, Raise e).
Proof.
  intros Hdata. unfold _generate, bindM, lift.
  destruct (open background) as [source|e]; [|now exists e].
  match goal with
  | |- context [match ?c with Return _ => _ | Raise _ => _ end] =>
      destruct c as [converted|e]; [|now exists e]
  end.
  match goal with
  | |- context [thumbnail converted ?box] =>
      destruct (Hdata converted) as (_ & Hthumbnail & _);
      destruct (Hthumbnail box) as [e He];
      unfold thumbnail, bind; rewrite He
  end.
  now exists e.
Qed.

(** A font that cannot be loaded stops [_generate] before it draws. *)
Lemma generate_unresolvable_font top bottom font background width height w :
  (forall size, exists e, truetype font size = Raise e) ->
  exists e,
    _generate top bottom font background width height w = (w, Raise e).
Proof.
  intros Hfont.
  destruct (generate_outcome top bottom font background width height w)
    as [Hraise | Hreturn]; [assumption|].
  destruct Hreturn
    as (? & ? & ? & ? & top_size & ? & ? & ? & ? & ? & ? & ? & Hreturn).
  destruct Hreturn as (_ & _ & _ & _ & _ & _ & Hloaded & _).
  destruct (Hfont top_size) as [e He]. congruence.
Qed.

End SaveFacts.

(** C9. When the background cannot be loaded (it does not open, or its data
    cannot be read when Pillow needs it) or the font cannot be resolved, and
    more generally whenever the render raises, [save] raises and leaves the
    world as it found it: nothing was drawn, no directory was made and no
    file was written. *)
Theorem save_aborts_on_input_error `{OS} (self : Image) (w : World) :
  (exists e, open (get_path (template self) (style self)) = Raise e)
  \/ data_unreadable
  \/ (forall f, font self = Some f ->
        forall size, exists e, truetype (font_path f) size = Raise e)
  \/ (exists f w' e,
        font self = Some f /\
        _generate (top (text self)) (bottom (text self)) (font_path f)
                  (get_path (template self) (style self))
                  (width self) (height self) w
        = (w', Raise e)) ->
  exists e, save self w = (w, Raise e).
Proof.
  intros Hinput. unfold save. unfold bindM at 1. unfold lift at 1.
  destruct (font self) as [f|] eqn:Hfont; [|now exists AttributeError].
  unfold bindM at 1.
  assert (Hraise : exists e,
             _generate (top (text self)) (bottom (text self)) (font_path f)
                       (get_path (template self) (style self))
                       (width self) (height self) w
             = (w, Raise e)).
  { destruct Hinput as [[e Hopen] | [Hdata | [Hunresolved | Hrender]]].
    - exists e. now apply generate_unreadable_background.
    - now apply generate_unreadable_data.
    - apply generate_unresolvable_font. now apply Hunresolved.
    - destruct Hrender as (f' & w' & e & [= <-] & Hgen).
      exists e. now rewrite Hgen, (generate_raise_unchanged _ _ _ _ _ _ _ _ _ Hgen). }
  destruct Hraise as [e He]. rewrite He. now exists e.
Qed.

Lemma save_aborts_on_input_error_witness :
  exists e,
    @save Reference.fractions Reference.fixed_pitch Reference.files
      (init Reference.lost Reference.hello_world (Some (Py.lit "/data")) None
            (Some Reference.impact) None)
      Reference.blank
    = (Reference.blank, Raise e).
Proof.
  apply (@save_aborts_on_input_error
           Reference.fractions Reference.fixed_pitch Reference.files).
  left. exists IOError. reflexivity.
Defined.

Example save_missing_font :
  @save Reference.fractions Reference.fixed_pitch Reference.files
    (Reference.request None (Some Reference.comic) None) Reference.blank
  = (Reference.blank, Raise OSError).
Proof. vm_compute. reflexivity. Qed.

(** A negative width: Pillow refuses the box when it resizes. *)
Example save_negative_width :
  @save Reference.fractions Reference.fixed_pitch Reference.files
    (Reference.request None (Some Reference.impact)
       (Some {| get_width := Some (-5); get_height := None |}))
    Reference.blank
  = (Reference.blank, Raise ValueError).
Proof. reflexivity. Qed.

(** A render that succeeds: 26 calls for each caption, one directory, one
    file. *)
Example save_writes :
  let '(w, r) :=
    @save Reference.fractions Reference.fixed_pitch Reference.files
      (Reference.request None (Some Reference.impact) None) Reference.blank in
  r = Return tt
  /\ len (drawn w) = 52
  /\ disk w = ([Py.lit "/data/buzz/hello"],
               [Py.lit "/data/buzz/hello/world#05199deca16614131327f2c3fea9031c.img"]).
Proof. vm_compute. repeat split. Qed.

(** ** Positions of the captions *)

(** C5, as stated, does not hold for real arithmetic: the code computes in
    floats.  On a picture 480 wide and 400 high, with a bottom caption whose
    text block is 80 wide and 80 high, the white call is at x = 200 and at
    the float y = 5394937053620906 / 2 ** 44, which is not 400 - 80 * 7 / 6 =
    920 / 3, and not even the float nearest to it, 5394937053620907 / 2 ** 44. *)
Lemma bottom_position_is_rounded :
  map (fun call : @DrawCall Binary64.floats Reference.fixed_pitch =>
         (drawn_text call, fill call,
          Binary64.dyadic (to_float (fst (xy call))),
          Binary64.dyadic (to_float (snd (xy call)))))
      (skipn 99
         (drawn (fst (@_generate Binary64.floats Reference.fixed_pitch
                        Binary64.files
                        (Py.lit "Hi") (Py.lit "yo") Reference.font_file
                        Reference.background_file None (Some 400)
                        Binary64.blank))))
  = [(Py.lit "yo", white, Some (7036874417766400, -45),
      Some (5394937053620906, -44))]
  /\ snd (@_generate Binary64.floats Reference.fixed_pitch Binary64.files
            (Py.lit "Hi") (Py.lit "yo") Reference.font_file
            Reference.background_file None (Some 400) Binary64.blank)
     = Return {| mode := Py.lit "RGB"; format := Some (Py.lit "JPEG");
                 size := (480, 400) |}
  /\ @multiline_textsize Reference.fixed_pitch (Py.lit "yo") 80 = (80, 80)
  /\ 3 * 5394937053620906 <> 920 * 2 ^ 44
  /\ Binary64.dyadic (PrimFloat.div (Binary64.of_Z 920) (Binary64.of_Z 3))
     = Some (5394937053620907, -44).
Proof.
  split; [vm_compute; reflexivity|].
  split; [vm_compute; reflexivity|].
  split; [reflexivity|].
  split; [vm_compute; discriminate | vm_compute; reflexivity].
Qed.

(** C5, amended. On a picture of width W and height H, the calls of the top
    caption are made around the position (W / 2 - w / 2, 0) and those of the
    bottom caption around (W / 2 - w / 2, H - h * (7 / 6)), where (w, h) is
    the size of the caption's text block at the size chosen for it, and where
    [/], [*] and [-] are Python's: float operations, each rounded, with 7 / 6
    computed first; the white call of each caption is at the position
    itself. *)
Theorem captions_drawn_at_float_positions `{OS}
        (top bottom font background : str) (width height : option Z)
        (w w' : World) (image : Picture) :
  _generate top bottom font background width height w = (w', Return image) ->
  exists limit floor top_size top_text bottom_size bottom_text
         top_font bottom_font,
    _optimize_font_size font top limit floor (fst (size image) - 20)
    = Return (top_size, top_text) /\
    _optimize_font_size font bottom limit floor (fst (size image) - 20)
    = Return (bottom_size, bottom_text) /\
    truetype font top_size = Return top_font /\
    truetype font bottom_size = Return bottom_font /\
    drawn w'
    = drawn w
      ++ caption_calls
           (top_position (size image) (multiline_textsize top_text top_font))
           top_text top_font top_size
      ++ caption_calls
           (bottom_position (size image)
              (multiline_textsize bottom_text bottom_font))
           bottom_text bottom_font bottom_size.
Proof.
  unfold _generate, bindM, lift.
  destruct (open background) as [source|e]; [|discriminate].
  match goal with
  | |- context [match ?c with Return _ => _ | Raise _ => _ end] =>
      destruct c as [converted|e]; [|discriminate]
  end.
  match goal with
  | |- context [thumbnail converted ?box] =>
      destruct (thumbnail converted box) as [resized|e]; [|discriminate]
  end.
  destruct (Draw resized) as [[]|e]; [|discriminate].
  set (limit := int (truediv (Int (snd (size resized))) (Int 5))).
  set (floor := int (truediv (Int (snd (size resized))) (Int 12))).
  destruct (_optimize_font_size font top limit floor (fst (size resized) - 20))
    as [[top_size top_text]|e] eqn:Htop; [|discriminate].
  destruct (_optimize_font_size font bottom limit floor (fst (size resized) - 20))
    as [[bottom_size bottom_text]|e] eqn:Hbottom; [|discriminate].
  destruct (truetype font top_size) as [top_font|e] eqn:Htf; [|discriminate].
  destruct (truetype font bottom_size) as [bottom_font|e] eqn:Hbf;
    [|discriminate].
  rewrite !draw_outlined_text_appends, appended_app.
  intros [= <- <-].
  exists limit, floor, top_size, top_text, bottom_size, bottom_text,
         top_font, bottom_font.
  repeat split; assumption || reflexivity.
Qed.

Section PositionsOnReference.
#[local] Existing Instance Reference.fractions.
#[local] Existing Instance Reference.fixed_pitch.
#[local] Existing Instance Reference.files.

Lemma captions_drawn_at_float_positions_witness :
  let w' :=
    fst (_generate (Py.lit "Hi") (Py.lit "yo") Reference.font_file
                   Reference.background_file None None Reference.blank) in
  exists limit floor top_size top_text bottom_size bottom_text
         top_font bottom_font,
    _optimize_font_size Reference.font_file (Py.lit "Hi") limit floor
                        (fst (size Samples.rendered) - 20)
    = Return (top_size, top_text) /\
    _optimize_font_size Reference.font_file (Py.lit "yo") limit floor
                        (fst (size Samples.rendered) - 20)
    = Return (bottom_size, bottom_text) /\
    truetype Reference.font_file top_size = Return top_font /\
    truetype Reference.font_file bottom_size = Return bottom_font /\
    drawn w'
    = drawn Reference.blank
      ++ caption_calls
           (top_position (size Samples.rendered)
              (multiline_textsize top_text top_font))
           top_text top_font top_size
      ++ caption_calls
           (bottom_position (size Samples.rendered)
              (multiline_textsize bottom_text bottom_font))
           bottom_text bottom_font bottom_size.
Proof.
  apply (captions_drawn_at_float_positions
           (Py.lit "Hi") (Py.lit "yo") Reference.font_file
           Reference.background_file None None Reference.blank
           (fst (_generate (Py.lit "Hi") (Py.lit "yo") Reference.font_file
                           Reference.background_file None None Reference.blank))
           Samples.rendered).
  reflexivity.
Defined.

End PositionsOnReference.

(** X5. Whenever [_generate] raises, whatever the reason, it has drawn
    nothing and left the file system alone: the world is the one it was
    given. *)
Theorem generate_raises_before_drawing `{OS} (top bottom font background : str)
        (width height : option Z) (w w' : World) (e : exn) :
  _generate top bottom font background width height w = (w', Raise e) ->
  w' = w.
Proof.
  intros Hgen.
  destruct (generate_outcome top bottom font background width height w)
    as [[e' Hraise] | Hreturn].
  - rewrite Hraise in Hgen. now injection Hgen as <- _.
  - destruct Hreturn as (? & ? & ? & ? & ? & ? & ? & ? & ? & ? & ? & ? & Hreturn).
    destruct Hreturn as (_ & _ & _ & _ & _ & _ & _ & _ & Hreturn).
    rewrite Hreturn in Hgen. discriminate.
Qed.

Lemma generate_raises_before_drawing_witness :
  Reference.blank = Reference.blank.
Proof.
  apply (@generate_raises_before_drawing
           Reference.fractions Reference.fixed_pitch Reference.files
           (Py.lit "Hi") (Py.lit "yo") (Py.lit "comic.ttf")
           Reference.background_file None None
           Reference.blank Reference.blank OSError).
  reflexivity.
Defined.

(** X6. When [_generate] returns, the file system is untouched and the
    calls it added are exactly those of the top caption followed by those of
    the bottom caption; each caption is drawn with the text and at the size
    [_optimize_font_size] returned for it, both laid out under the same
    limits, the width limit being the picture's width minus 20. *)
Theorem generate_draws_top_then_bottom `{OS} (top bottom font background : str)
        (width height : option Z) (w w' : World) (image : Picture) :
  _generate top bottom font background width height w = (w', Return image) ->
  disk w' = disk w /\
  exists limit floor top_size top_text bottom_size bottom_text
         top_font bottom_font top_position bottom_position,
    _optimize_font_size font top limit floor (fst (size image) - 20)
    = Return (top_size, top_text) /\
    _optimize_font_size font bottom limit floor (fst (size image) - 20)
    = Return (bottom_size, bottom_text) /\
    truetype font top_size = Return top_font /\
    truetype font bottom_size = Return bottom_font /\
    drawn w'
    = drawn w
      ++ caption_calls top_position top_text top_font top_size
      ++ caption_calls bottom_position bottom_text bottom_font bottom_size.
Proof.
  intros Hgen.
  destruct (generate_outcome top bottom font background width height w)
    as [[e Hraise] | Hreturn].
  { rewrite Hraise in Hgen. discriminate. }
  destruct Hreturn
    as (source & image' & limit & floor & top_size & top_text & bottom_size
        & bottom_text & top_font & bottom_font & top_position & bottom_position
        & _ & _ & _ & _ & Htop & Hbottom & Htf & Hbf & Hreturn).
  rewrite Hreturn in Hgen. injection Hgen as <- <-.
  split; [reflexivity|].
  exists limit, floor, top_size, top_text, bottom_size, bottom_text,
         top_font, bottom_font, top_position, bottom_position.
  repeat split; assumption || reflexivity.
Qed.

Section DrawsOnReference.
#[local] Existing Instance Reference.fractions.
#[local] Existing Instance Reference.fixed_pitch.
#[local] Existing Instance Reference.files.

Lemma generate_draws_top_then_bottom_witness :
  let w' :=
    fst (_generate (Py.lit "Hi") (Py.lit "yo") Reference.font_file
                   Reference.background_file None None Reference.blank) in
  disk w' = disk Reference.blank /\
  exists limit floor top_size top_text bottom_size bottom_text
         top_font bottom_font top_position bottom_position,
    _optimize_font_size Reference.font_file (Py.lit "Hi") limit floor
                        (fst (size Samples.rendered) - 20)
    = Return (top_size, top_text) /\
    _optimize_font_size Reference.font_file (Py.lit "yo") limit floor
                        (fst (size Samples.rendered) - 20)
    = Return (bottom_size, bottom_text) /\
    truetype Reference.font_file top_size = Return top_font /\
    truetype Reference.font_file bottom_size = Return bottom_font /\
    drawn w'
    = drawn Reference.blank
      ++ caption_calls top_position top_text top_font top_size
      ++ caption_calls bottom_position bottom_text bottom_font bottom_size.
Proof.
  apply (generate_draws_top_then_bottom
           (Py.lit "Hi") (Py.lit "yo") Reference.font_file
           Reference.background_file None None Reference.blank
           (fst (_generate (Py.lit "Hi") (Py.lit "yo") Reference.font_file
                           Reference.background_file None None Reference.blank))
           Samples.rendered).
  reflexivity.
Defined.

End DrawsOnReference.

(** X7. The picture [_generate] returns is always in mode RGB or RGBA; it is
    declared JPEG exactly when the background was a JPEG; and its size is
    the thumbnail of the background's size within 400 by 400 when neither a
    width nor a height is asked for, and within the asked width and height,
    2000 standing for a missing or zero one, otherwise. *)
Theorem generate_picture_mode_and_format `{OS} (top bottom font background : str)
        (width height : option Z) (w w' : World) (image : Picture) :
  _generate top bottom font background width height w = (w', Return image) ->
  exists source,
    open background = Return source /\
    (mode image = RGB \/ mode image = RGBA) /\
    (format image = Some JPEG <-> format source = Some JPEG) /\
    size image
    = thumbnail_size (size source)
        (if truthy_int width || truthy_int height
         then (int_or width 2000, int_or height 2000) else (400, 400)).
Proof.
  intros Hgen.
  destruct (generate_outcome top bottom font background width height w)
    as [[e Hraise] | Hreturn].
  { rewrite Hraise in Hgen. discriminate. }
  destruct Hreturn
    as (source & image' & limit & floor & top_size & top_text & bottom_size
        & bottom_text & top_font & bottom_font & top_position & bottom_position
        & Hopen & Hmode & Hformat & Hsize & _ & _ & _ & _ & Hreturn).
  rewrite Hreturn in Hgen. injection Hgen as _ <-.
  exists source. auto.
Qed.

Section PictureOnReference.
#[local] Existing Instance Reference.fractions.
#[local] Existing Instance Reference.fixed_pitch.
#[local] Existing Instance Reference.files.

Lemma generate_picture_mode_and_format_witness :
  exists source,
    open Reference.background_file = Return source /\
    (mode Samples.rendered = RGB \/ mode Samples.rendered = RGBA) /\
    (format Samples.rendered = Some JPEG <-> format source = Some JPEG) /\
    size Samples.rendered
    = thumbnail_size (size source)
        (if truthy_int None || truthy_int None
         then (int_or None 2000, int_or None 2000) else (400, 400)).
Proof.
  apply (generate_picture_mode_and_format
           (Py.lit "Hi") (Py.lit "yo") Reference.font_file
           Reference.background_file None None Reference.blank
           (fst (_generate (Py.lit "Hi") (Py.lit "yo") Reference.font_file
                           Reference.background_file None None Reference.blank))
           Samples.rendered).
  reflexivity.
Defined.

End PictureOnReference.

(** ** Requests, digests and paths *)

Lemma path_zero_width (self : Image) ht :
  path (resized self (Some 0) ht) = path (resized self None ht).
Proof.
  unfold path, overridden. rewrite !hash_concat.
  unfold hashed_text, overrides, resized;
    cbn [root template style text font width height map of_int_opt].
  reflexivity.
Qed.

Lemma path_zero_height (self : Image) wd :
  path (resized self wd (Some 0)) = path (resized self wd None).
Proof.
  unfold path, overridden. rewrite !hash_concat.
  unfold hashed_text, overrides, resized;
    cbn [root template style text font width height map of_int_opt].
  reflexivity.
Qed.

Lemma generate_zero_height `{OS} top bottom font background wd w :
  _generate top bottom font background wd (Some 0) w
  = _generate top bottom font background wd None w.
Proof.
  unfold _generate.
  replace (truthy_int wd || truthy_int (Some 0))
    with (truthy_int wd || truthy_int None) by reflexivity.
  replace (int_or (Some 0) 2000) with (int_or None 2000) by reflexivity.
  reflexivity.
Qed.

(** X8. A width or a height of 0 counts as missing everywhere: the image
    has the same path, and [save] does exactly the same, as with that
    dimension left out. *)
Theorem zero_dimension_is_unset `{OS} (self : Image) (wd ht : option Z)
        (w : World) :
  path (resized self (Some 0) ht) = path (resized self None ht)
  /\ path (resized self wd (Some 0)) = path (resized self wd None)
  /\ save (resized self (Some 0) ht) w = save (resized self None ht) w
  /\ save (resized self wd (Some 0)) w = save (resized self wd None) w.
Proof.
  split; [apply path_zero_width|]. split; [apply path_zero_height|]. split.
  - unfold save. rewrite !path_zero_width. reflexivity.
  - unfold save. rewrite !path_zero_height.
    cbn [resized font text template style width height].
    destruct (font self) as [f|]; [|reflexivity].
    unfold bindM at 1 3. unfold lift at 1 5.
    unfold bindM at 1 6. rewrite generate_zero_height. reflexivity.
Qed.

Section DigestFacts.
Local Open Scope outcome_scope.

Lemma le_bytes_length n : forall x, List.length (Hashlib.le_bytes n x) = n.
Proof. induction n as [|n IH]; intros x; cbn; [reflexivity | now rewrite IH]. Qed.

Lemma le_bytes_range n : forall x,
  Forall (fun b => 0 <= b < 256) (Hashlib.le_bytes n x).
Proof.
  induction n as [|n IH]; intros x; cbn; constructor; [|apply IH].
  change 255 with (Z.ones 8). rewrite Z.land_ones by lia.
  apply Z.mod_pos_bound. lia.
Qed.

Lemma md5_sixteen_bytes msg :
  List.length (Hashlib.md5 msg) = 16%nat /\
  Forall (fun b => 0 <= b < 256) (Hashlib.md5 msg).
Proof.
  unfold Hashlib.md5.
  destruct (Hashlib.blocks _ _ _) as [[[a b] c] d].
  split.
  - rewrite !length_app, !le_bytes_length. reflexivity.
  - rewrite !Forall_app. repeat split; apply le_bytes_range.
Qed.

Lemma hexdigit_is_hex v : 0 <= v < 16 -> hex_digit (Hashlib.hexdigit v) = true.
Proof.
  intros Hv.
  assert (Hcases : v = 0 \/ v = 1 \/ v = 2 \/ v = 3 \/ v = 4 \/ v = 5 \/ v = 6
                   \/ v = 7 \/ v = 8 \/ v = 9 \/ v = 10 \/ v = 11 \/ v = 12
                   \/ v = 13 \/ v = 14 \/ v = 15) by lia.
  repeat (destruct Hcases as [-> | Hcases]; [reflexivity|]).
  subst v. reflexivity.
Qed.

Lemma hex_of_bytes bs :
  Forall (fun b => 0 <= b < 256) bs ->
  List.length (Hashlib.hex bs) = (2 * List.length bs)%nat /\
  forallb hex_digit (Hashlib.hex bs) = true.
Proof.
  induction 1 as [|b bs Hb Hbs [IHlen IHhex]]; [now split|].
  unfold Hashlib.hex in *. cbn [flat_map app List.length forallb].
  split; [rewrite IHlen; lia|].
  rewrite !hexdigit_is_hex, IHhex; [reflexivity| |].
  - apply Z.mod_pos_bound. lia.
  - split; [apply Z.div_pos; lia | apply Z.div_lt_upper_bound; lia].
Qed.

Lemma hexdigest_shape sha :
  len (Hashlib.hexdigest sha) = 32 /\
  forallb hex_digit (Hashlib.hexdigest sha) = true.
Proof.
  unfold Hashlib.hexdigest, Py.len.
  destruct (md5_sixteen_bytes sha) as [Hlen Hrange].
  destruct (hex_of_bytes _ Hrange) as [Hhexlen Hhex].
  rewrite Hhexlen, Hlen. now split.
Qed.

Lemma hash_is_hexdigest values slug :
  hash values = Return slug -> exists sha, slug = Hashlib.hexdigest sha.
Proof.
  unfold hash. destruct (feed [] values) as [sha|e]; cbn; [|discriminate].
  intros [= <-]. now exists sha.
Qed.

Lemma encode_char_returns c :
  (exists bs, Codec.encode_char c = Return bs) <-> encodable c = true.
Proof.
  unfold Codec.encode_char, encodable. cbv zeta.
  destruct (N.ltb_spec c 1114112); destruct (N.leb_spec 55296 c);
    destruct (N.leb_spec c 57343);
    destruct (Z.ltb_spec (Z.of_N c) 128); try lia;
    destruct (Z.ltb_spec (Z.of_N c) 2048); try lia;
    destruct (Z.ltb_spec (Z.of_N c) 65536); try lia;
    destruct (Z.leb_spec 55296 (Z.of_N c)); try lia;
    destruct (Z.leb_spec (Z.of_N c) 57343); try lia;
    destruct (Z.ltb_spec (Z.of_N c) 1114112); try lia;
    cbn [andb negb];
    (split; [intros [bs Hbs]; (discriminate || reflexivity)
            | intros Henc; (discriminate || now eexists)]).
Qed.

Lemma encode_returns s :
  (exists bs, Codec.encode s = Return bs) <-> forallb encodable s = true.
Proof.
  induction s as [|c s IH]; cbn.
  - split; [reflexivity | now eexists].
  - rewrite andb_true_iff, <- IH, <- encode_char_returns. split.
    + destruct (Codec.encode_char c) as [bs|e]; cbn; [|intros [? ?]; discriminate].
      destruct (Codec.encode s) as [more|e]; cbn; [|intros [? ?]; discriminate].
      intros _. split; now eexists.
    + intros [[bs ->] [more ->]]. cbn. now eexists.
Qed.

Lemma hash_hex_digits values slug :
  hash values = Return slug ->
  len slug = 32 /\ forallb hex_digit slug = true.
Proof.
  intros Hslug. apply hash_is_hexdigest in Hslug. destruct Hslug as [sha ->].
  apply hexdigest_shape.
Qed.

End DigestFacts.

(** X9. A digest [Image.hash] returns is 32 characters long and made of
    the digits 0 to 9 and the letters a to f only. *)
Theorem hash_is_32_hex_digits (values : list value) (slug : str) :
  hash values = Return slug ->
  len slug = 32 /\ forallb hex_digit slug = true.
Proof.
  intros Hslug. apply hash_is_hexdigest in Hslug. destruct Hslug as [sha ->].
  apply hexdigest_shape.
Qed.

Lemma hash_is_32_hex_digits_witness :
  len (Py.lit "8b9035807842a4e4dbe009f3f1478127") = 32 /\
  forallb hex_digit (Py.lit "8b9035807842a4e4dbe009f3f1478127") = true.
Proof.
  apply (hash_is_32_hex_digits [VStr (Py.lit "custom"); VNone; VNone; VNone]).
  vm_compute. reflexivity.
Defined.

(** X10. The digest depends on the four fields only through the
    concatenation of their string forms: overrides whose string forms
    concatenate to the same text have the same digest, even when the fields
    differ, as a style "x1" and a style "x" with width 1 do. *)
Theorem hash_of_equal_concatenations (values values' : list value) :
  hashed_text values = hashed_text values' ->
  hash values = hash values'.
Proof.
  intros Heq. rewrite !hash_concat. now rewrite Heq.
Qed.

Lemma hash_of_equal_concatenations_witness :
  hash [VStr (Py.lit "x1"); VNone; VNone; VNone]
  = hash [VStr (Py.lit "x"); VNone; VInt 1; VNone].
Proof.
  apply hash_of_equal_concatenations. reflexivity.
Defined.

(** X11. [Image.hash] returns a digest exactly when every character of the
    string forms can be encoded in UTF-8, that is, is no surrogate (and is a
    code point at all); otherwise the encoding raises. *)
Theorem hash_returns_iff_encodable (values : list value) :
  (exists slug, hash values = Return slug)
  <-> forallb encodable (hashed_text values) = true.
Proof.
  rewrite hash_concat, <- encode_returns. split.
  - destruct (Codec.encode (hashed_text values)) as [data|e];
      [now eexists | intros [? ?]; discriminate].
  - intros [data ->]. cbn. now eexists.
Qed.

Example hash_of_surrogate :
  hash [VStr [55357%N]; VNone; VNone; VNone] = Raise UnicodeEncodeError.
Proof. reflexivity. Qed.

Section DirectoryFacts.

Lemma after_last_sep_le p : (Posixpath.after_last_sep p <= List.length p)%nat.
Proof.
  induction p as [|c p IH]; cbn; [lia|].
  destruct (Posixpath.after_last_sep p); [destruct (N.eqb c Posixpath.sep)|]; lia.
Qed.

Lemma after_last_sep_none x : no_sep x = true -> Posixpath.after_last_sep x = O.
Proof.
  induction x as [|c x IH]; cbn; [reflexivity|].
  intros Hx. apply andb_prop in Hx. destruct Hx as [Hc Hx].
  rewrite (IH Hx). apply negb_true_iff in Hc. now rewrite Hc.
Qed.

Lemma after_last_sep_app p x :
  no_sep x = true ->
  Posixpath.after_last_sep (p ++ x) = Posixpath.after_last_sep p.
Proof.
  intros Hx. induction p as [|c p IH]; cbn.
  - now apply after_last_sep_none.
  - now rewrite IH.
Qed.

(** What follows the last separator does not matter to [dirname]. *)
Lemma dirname_app p x y :
  no_sep x = true -> no_sep y = true ->
  Posixpath.dirname (p ++ x) = Posixpath.dirname (p ++ y).
Proof.
  intros Hx Hy. unfold Posixpath.dirname.
  rewrite !after_last_sep_app by assumption.
  pose proof (after_last_sep_le p) as Hle.
  rewrite !firstn_app.
  replace (Posixpath.after_last_sep p - List.length p)%nat with O by lia.
  reflexivity.
Qed.

Lemma hex_digits_no_sep s : forallb hex_digit s = true -> no_sep s = true.
Proof.
  induction s as [|c s IH]; [reflexivity|].
  cbn [forallb]. intros Hs. apply andb_prop in Hs. destruct Hs as [Hc Hs].
  unfold no_sep in *. cbn [forallb].
  rewrite (IH Hs), andb_true_r. apply negb_true_iff, N.eqb_neq.
  intros ->. discriminate.
Qed.

Lemma no_sep_app a b : no_sep (a ++ b) = no_sep a && no_sep b.
Proof. unfold no_sep. apply forallb_app. Qed.

(** A path is the base followed by a suffix without separator. *)
Lemma path_suffix (self : Image) p :
  path self = Return (Some p) ->
  exists r suffix,
    root self = Some r /\
    p = Posixpath.join r [key (template self); text_path (text self)] ++ suffix /\
    no_sep suffix = true.
Proof.
  unfold path. destruct (root self) as [[|c r]|]; cbn [of_str truthy negb];
    try discriminate.
  destruct (_ || _).
  - destruct (hash (overrides self)) as [slug|e] eqn:Hslug; cbn; [|discriminate].
    intros [= <-]. exists (c :: r), (Py.lit "#" ++ slug ++ Py.lit ".img").
    split; [reflexivity|]. split; [reflexivity|].
    destruct (hash_hex_digits _ _ Hslug) as [_ Hhex].
    rewrite !no_sep_app, (hex_digits_no_sep _ Hhex). reflexivity.
  - intros [= <-]. exists (c :: r), (Py.lit ".img"). repeat split.
Qed.

End DirectoryFacts.

(** X12. The overrides never change the directory an image is saved in:
    two images with the same root, template key and text path have paths in
    the same directory, with or without a digest. *)
Theorem overrides_keep_the_directory (self other : Image) (p q : str) :
  root self = root other ->
  key (template self) = key (template other) ->
  text_path (text self) = text_path (text other) ->
  path self = Return (Some p) ->
  path other = Return (Some q) ->
  Posixpath.dirname p = Posixpath.dirname q.
Proof.
  intros Hroot Hkey Htext Hp Hq.
  apply path_suffix in Hp, Hq.
  destruct Hp as (r & x & Hr & -> & Hx).
  destruct Hq as (r' & y & Hr' & -> & Hy).
  rewrite Hroot, Hr' in Hr. injection Hr as <-.
  rewrite Hkey, Htext. now apply dirname_app.
Qed.

Lemma overrides_keep_the_directory_witness :
  Posixpath.dirname (Py.lit "/data/buzz/hello/world.img")
  = Posixpath.dirname
      (Py.lit "/data/buzz/hello/world#45c559239a80394bf5950784f8f3a159.img").
Proof.
  apply (overrides_keep_the_directory
           (Reference.request None None None)
           (Reference.request None (Some Reference.impact) (Some Reference.wide)));
    vm_compute; reflexivity.
Defined.

(** X13. An image without a root cannot be saved, but [save] finds out only
    after rendering: when [_generate] returns, [save] raises TypeError, and
    the file system is as it was. *)
Theorem save_without_root `{OS} (self : Image) (f : Font) (w w1 : World)
        (data : Picture) :
  root self = None \/ root self = Some [] ->
  font self = Some f ->
  _generate (top (text self)) (bottom (text self)) (font_path f)
            (get_path (template self) (style self))
            (width self) (height self) w
  = (w1, Return data) ->
  save self w = (w1, Raise TypeError) /\ disk w1 = disk w.
Proof.
  intros Hroot Hfont Hgen. split.
  - unfold save. rewrite Hfont. unfold bindM at 1. unfold lift at 1.
    unfold bindM at 1. rewrite Hgen.
    assert (Hpath : path self = Return None).
    { unfold path. destruct Hroot as [-> | ->]; reflexivity. }
    unfold bindM at 1. unfold lift at 1. rewrite Hpath.
    unfold bindM at 1. unfold lift at 1. reflexivity.
  - destruct (generate_outcome (top (text self)) (bottom (text self))
                (font_path f) (get_path (template self) (style self))
                (width self) (height self) w) as [[e Hraise] | Hreturn].
    + rewrite Hraise in Hgen. discriminate.
    + destruct Hreturn
        as (? & ? & ? & ? & ? & ? & ? & ? & ? & ? & ? & ? & Hreturn).
      destruct Hreturn as (_ & _ & _ & _ & _ & _ & _ & _ & Hreturn).
      rewrite Hreturn in Hgen. now injection Hgen as <- _.
Qed.

Section SaveOnReference.
#[local] Existing Instance Reference.fractions.
#[local] Existing Instance Reference.fixed_pitch.
#[local] Existing Instance Reference.files.

Lemma save_without_root_witness :
  let w1 :=
    fst (_generate (Py.lit "Hi") (Py.lit "yo") Reference.font_file
                   Reference.background_file None None Reference.blank) in
  save Samples.rootless Reference.blank = (w1, Raise TypeError)
  /\ disk w1 = disk Reference.blank.
Proof.
  apply (save_without_root Samples.rootless Reference.impact Reference.blank
           (fst (_generate (Py.lit "Hi") (Py.lit "yo") Reference.font_file
                           Reference.background_file None None Reference.blank))
           Samples.rendered).
  - left. reflexivity.
  - reflexivity.
  - reflexivity.
Defined.

End SaveOnReference.

(** X14. After a successful render of an image with a path, [save] makes
    the directory of the path only when it is not there yet; when making it
    fails, that error is raised and nothing is written; otherwise the picture
    is written at the path, in the format [_generate] declared, with all the
    calls drawn on it, and the result of that write is the result of
    [save]. *)
Theorem save_makes_directory_then_writes `{OS} (self : Image) (f : Font)
        (w w1 : World) (data : Picture) (p : str) :
  font self = Some f ->
  _generate (top (text self)) (bottom (text self)) (font_path f)
            (get_path (template self) (style self))
            (width self) (height self) w
  = (w1, Return data) ->
  path self = Return (Some p) ->
  let directory := Posixpath.dirname p in
  let write := fun d =>
    let '(d', r) := write_image d p (format data) data (drawn w1) in
    ({| disk := d'; drawn := drawn w1 |}, r) in
  save self w =
  if isdir (disk w) directory then write (disk w)
  else match makedirs (disk w) directory with
       | (d, Return _) => write d
       | (d, Raise e) => ({| disk := d; drawn := drawn w1 |}, Raise e)
       end.
Proof.
  intros Hfont Hgen Hpath directory write.
  assert (Hdisk : disk w1 = disk w).
  { destruct (generate_outcome (top (text self)) (bottom (text self))
                (font_path f) (get_path (template self) (style self))
                (width self) (height self) w) as [[e Hraise] | Hreturn].
    - rewrite Hraise in Hgen. discriminate.
    - destruct Hreturn
        as (? & ? & ? & ? & ? & ? & ? & ? & ? & ? & ? & ? & Hreturn).
      destruct Hreturn as (_ & _ & _ & _ & _ & _ & _ & _ & Hreturn).
      rewrite Hreturn in Hgen. now injection Hgen as <- _. }
  unfold save. rewrite Hfont. unfold bindM at 1. unfold lift at 1.
  unfold bindM at 1. rewrite Hgen.
  unfold bindM, lift, os_isdir, os_makedirs, data_save, ret.
  rewrite Hpath, Hdisk. fold directory.
  subst write. cbv beta.
  destruct (isdir (disk w) directory); cbn [negb].
  - cbn [disk drawn]. rewrite Hdisk.
    destruct (write_image (disk w) p (format data) data (drawn w1));
      reflexivity.
  - cbn [disk drawn]. rewrite ?Hdisk.
    destruct (makedirs (disk w) directory) as [d [[]|e]]; cbn [disk drawn];
      [|reflexivity].
    destruct (write_image d p (format data) data (drawn w1)); reflexivity.
Qed.

Section WriteOnReference.
#[local] Existing Instance Reference.fractions.
#[local] Existing Instance Reference.fixed_pitch.
#[local] Existing Instance Reference.files.

Lemma save_makes_directory_then_writes_witness :
  snd (save Samples.plain Reference.blank) = Return tt
  /\ disk (fst (save Samples.plain Reference.blank))
     = ([Py.lit "/data/buzz/hi"], [Samples.target]).
Proof.
  assert (Hpath : path Samples.plain = Return (Some Samples.target))
    by (vm_compute; reflexivity).
  rewrite (save_makes_directory_then_writes
             Samples.plain Reference.impact Reference.blank
             (fst (_generate (Py.lit "Hi") (Py.lit "yo") Reference.font_file
                             Reference.background_file None None
                             Reference.blank))
             Samples.rendered Samples.target eq_refl eq_refl Hpath).
  split; reflexivity.
Defined.

End WriteOnReference.

(** ** The search for a size, without assumptions on the widths *)

(** X15. For any font that loads at the sizes from 1 to the ceiling, also
    one whose widths go up and down with the size, [_maximize_font_size]
    returns the first size that fits, counting down from the ceiling: no size
    above it up to the ceiling fits, and it fits itself unless it is 1. *)
Theorem maximize_first_fit_from_above `{Pillow} (font text : str) (max_size : Z) :
  1 <= max_size ->
  loads font max_size ->
  exists r,
    _maximize_font_size font text max_size = Return r /\
    1 <= r <= max_size /\
    (forall s, r < s <= max_size -> ~ fits font text max_size s) /\
    (fits font text max_size r \/ (r = 1 /\ ~ fits font text max_size r)).
Proof.
  intros Hpos Hloads.
  destruct (Hloads max_size ltac:(lia)) as [fontobj Hfont].
  destruct (shrink_scan font text max_size (Z.to_nat max_size) max_size fontobj
              eq_refl Hfont) as (r & Hr & Habove & Hstop).
  { intros s Hs. apply Hloads. lia. }
  assert (Hmax : _maximize_font_size font text max_size = Return r).
  { unfold _maximize_font_size, bind. now rewrite Hfont. }
  pose proof (maximize_bounds _ _ _ _ Hmax) as Hbounds.
  exists r. split; [assumption|]. split; [lia|]. split; [assumption|].
  destruct Hstop as [Hfits|[Hone Hnofit]]; [now left|].
  right. split; [lia | assumption].
Qed.

Lemma maximize_first_fit_from_above_witness :
  exists r,
    @_maximize_font_size Reference.fixed_pitch
      Reference.font_file (Py.lit "Hello") 100 = Return r /\
    1 <= r <= 100 /\
    (forall s, r < s <= 100 ->
       ~ @fits Reference.fixed_pitch Reference.font_file (Py.lit "Hello") 100 s) /\
    (@fits Reference.fixed_pitch Reference.font_file (Py.lit "Hello") 100 r
     \/ (r = 1 /\
         ~ @fits Reference.fixed_pitch Reference.font_file (Py.lit "Hello") 100 r)).
Proof.
  apply (@maximize_first_fit_from_above Reference.fixed_pitch).
  - lia.
  - apply fixed_pitch_loads.
Defined.

(** X16. The size [_optimize_font_size] returns never exceeds
    [max_text_len], so it is zero or negative for a picture at most 20 pixels
    wide; and when the caption was split in two lines, it is at most half of
    [max_font_size]. *)
Theorem optimize_size_upper_bounds `{Pillow} (font text : str)
        (max_font_size min_font_size max_text_len size : Z) (text' : str) :
  _optimize_font_size font text max_font_size min_font_size max_text_len
  = Return (size, text') ->
  size <= max_text_len /\ (text' <> text -> size <= max_font_size / 2).
Proof.
  intros Hopt.
  destruct (optimize_phrases _ _ _ _ _ _ _ Hopt)
    as (phrases & sizes & Hphrases & Hsizes & -> & ->).
  pose proof (maximize_all_each _ _ _ _ Hsizes) as Heach.
  assert (Hshape : phrases = [text]
                   \/ exists l1 l2, phrases = [l1; l2]).
  { destruct Hphrases as [-> | ->]; [now left|].
    destruct (split_shape text) as [-> | (l1 & l2 & -> & _)];
      [now left | right; now exists l1, l2]. }
  split.
  - assert (Hfirst : exists r, In r sizes /\ r <= max_text_len).
    { destruct Hshape as [-> | (l1 & l2 & ->)];
        inversion Heach as [|? r ? ? Hmax ?]; subst;
        exists r; (split; [now left|]); apply maximize_bounds in Hmax; lia. }
    destruct Hfirst as [r [Hr Hr_le]].
    pose proof (fold_min_elem sizes (max_font_size / len phrases) r Hr). lia.
  - intros Hchanged. destruct Hshape as [-> | (l1 & l2 & ->)].
    + now contradiction Hchanged.
    + apply (fold_min_below sizes).
Qed.

Lemma optimize_size_upper_bounds_witness :
  40 <= 180 /\
  (Py.lit "Hello," ++ [newline] ++ Py.lit "world!" <> Py.lit "Hello, world!" ->
   40 <= 80 / 2).
Proof.
  apply (@optimize_size_upper_bounds Reference.fixed_pitch Reference.font_file
           (Py.lit "Hello, world!") 80 33 180 40).
  vm_compute. reflexivity.
Defined.
